(** * InkGenius: the service layer and the application shell, embedded in Rocq

    The development follows the two TypeScript sources of the program:
    - [services/geminiService.ts]: the seven exported service functions, with
      [fileToPart] and [handleImageEditApiResponse];
    - [App.tsx]: [dataURLtoFile], the [Project] record, the React state of
      the [App] component and its event handlers.

    JavaScript strings are Rocq strings (sequences of 8-bit code units), a
    value that may be [undefined] is an [option], a function that may throw
    returns an [Outcome], and the handlers of the component run in a small
    state-and-exception monad over the React state and the local storage. *)

From Stdlib Require Import String Ascii List ZArith Lia Bool DecimalString DecimalN DecimalPos.
From stdpp Require Import base option list strings gmap.
Import ListNotations.

#[local] Set Warnings "-register-all".
Local Open Scope string_scope.
Local Open Scope list_scope.

(* ===================================================================== *)
(** ** JavaScript values that are thrown, and results of fallible code   *)
(* ===================================================================== *)

(** What a [throw] (or a rejected promise) carries. *)
Inductive Thrown : Type :=
| NewError (message : string)
    (* [new Error(message)], made by the program itself *)
| RaisedError (name message : string)
    (* an Error instance raised by the platform or the SDK: TypeError,
       ApiError, DOMException ...; [instanceof Error] holds *)
| NonError (v : string).
    (* a thrown value that is not an Error instance *)

Definition instanceof_Error (e : Thrown) : bool :=
  match e with
  | NewError _ | RaisedError _ _ => true
  | NonError _ => false
  end.

(** [error.message], read only after [instanceof Error] succeeded. *)
Definition message_of (e : Thrown) : string :=
  match e with
  | NewError m => m
  | RaisedError _ m => m
  | NonError _ => ""
  end.

Inductive Outcome (A : Type) : Type :=
| Return (a : A)
| Throw (e : Thrown).
Arguments Return {A} a.
Arguments Throw {A} e.

Definition obind {A B} (m : Outcome A) (k : A -> Outcome B) : Outcome B :=
  match m with
  | Return a => k a
  | Throw e => Throw e
  end.

(** [try { body } catch (error) { handler(error) }] *)
Definition try_catch {A} (body : Outcome A) (handler : Thrown -> Outcome A) : Outcome A :=
  match body with
  | Return a => Return a
  | Throw e => handler e
  end.

Declare Scope outcome_scope.
Delimit Scope outcome_scope with outcome.
Notation "'let*' x ':=' m 'in' k" := (obind m (fun x => k))
  (at level 10, x pattern, m at level 100, k at level 200) : outcome_scope.
Local Open Scope outcome_scope.

(* ===================================================================== *)
(** ** Strings                                                           *)
(* ===================================================================== *)

(** The double quote character, for the prompts that contain it. *)
Definition dq : string := String (ascii_of_nat 34) EmptyString.

(** JavaScript truthiness of a string that may be undefined:
    [undefined] and the empty string are falsy. *)
Definition truthy (o : option string) : bool :=
  match o with
  | Some (String _ _) => true
  | _ => false
  end.

(** [`${x}`] for a value that may be undefined. *)
Definition interp (o : option string) : string :=
  match o with
  | Some s => s
  | None => "undefined"
  end.

(** [x || d] on strings. *)
Definition or_else (o : option string) (d : string) : string :=
  match o with
  | Some (String c r) => String c r
  | _ => d
  end.

(** [s.split(sep)] for a one-character separator: never empty. *)
Fixpoint split_on (sep : ascii) (s : string) : list string :=
  match s with
  | EmptyString => [EmptyString]
  | String c r =>
      if Ascii.eqb c sep then EmptyString :: split_on sep r
      else match split_on sep r with
           | [] => [String c EmptyString]
           | h :: t => String c h :: t
           end
  end.

(** Line terminators, which [.] does not match (no [s] flag). *)
Definition is_line_terminator (c : ascii) : bool :=
  Ascii.eqb c "010"%char || Ascii.eqb c "013"%char.

(** The tail [(.*?);] of the pattern, tried right after a colon: the lazy
    group takes one more character at a time until a semicolon follows. *)
Fixpoint lazy_until_semicolon (s : string) : option string :=
  match s with
  | EmptyString => None
  | String c r =>
      if Ascii.eqb c ";"%char then Some EmptyString
      else if is_line_terminator c then None
      else match lazy_until_semicolon r with
           | Some g => Some (String c g)
           | None => None
           end
  end.

(** [s.match(/:(.*?);/)]: the leftmost colon from which the tail matches;
    the result is the captured group [mimeMatch[1]], [None] when there is no
    match ([null]). *)
Fixpoint match_mime (s : string) : option string :=
  match s with
  | EmptyString => None
  | String c r =>
      if Ascii.eqb c ":"%char then
        match lazy_until_semicolon r with
        | Some g => Some g
        | None => match_mime r
        end
      else match_mime r
  end.

(** White space and line terminators removed by [String.prototype.trim],
    as far as 8-bit code units go: TAB, LF, VT, FF, CR, SP, NBSP. *)
Definition is_js_space (c : ascii) : bool :=
  let n := nat_of_ascii c in
  ((9 <=? n)%nat && (n <=? 13)%nat) || (n =? 32)%nat || (n =? 160)%nat.

Fixpoint trim_start (s : string) : string :=
  match s with
  | String c r => if is_js_space c then trim_start r else s
  | EmptyString => EmptyString
  end.

Fixpoint string_rev_onto (s acc : string) : string :=
  match s with
  | EmptyString => acc
  | String c r => string_rev_onto r (String c acc)
  end.

Definition string_rev (s : string) : string := string_rev_onto s EmptyString.

Definition trim_end (s : string) : string := string_rev (trim_start (string_rev s)).

Definition trim (s : string) : string := trim_end (trim_start s).

Fixpoint starts_with (p s : string) : bool :=
  match p, s with
  | EmptyString, _ => true
  | String a p', String b s' => Ascii.eqb a b && starts_with p' s'
  | String _ _, EmptyString => false
  end.

Fixpoint drop_chars (n : nat) (s : string) : string :=
  match n, s with
  | O, _ => s
  | S n', String _ r => drop_chars n' r
  | S _, EmptyString => EmptyString
  end.

Definition ends_with (p s : string) : bool := starts_with (string_rev p) (string_rev s).

Definition drop_last_chars (n : nat) (s : string) : string :=
  string_rev (drop_chars n (string_rev s)).

(** [text.replace(/^```json|```$/g, '')]: without the [m] flag the first
    alternative can only match at index 0 and the second only at the very end
    of the input; a match of the first is consumed before the scan for the
    second goes on. *)
Definition strip_fences (text : string) : string :=
  let rest := if starts_with "```json" text then drop_chars 7 text else text in
  if ends_with "```" rest then drop_last_chars 3 rest else rest.

(** [arr.join(sep)] *)
Fixpoint join (sep : string) (l : list string) : string :=
  match l with
  | [] => EmptyString
  | [x] => x
  | x :: r => x +:+ sep +:+ join sep r
  end.

(** Decimal rendering of a non-negative integer, as in [`${Date.now()}`]. *)
Definition decimal (n : N) : string := NilZero.string_of_uint (N.to_uint n).


(* ===================================================================== *)
(** ** Files and the platform                                            *)
(* ===================================================================== *)

(** A [File]: its name, its media type and its bytes. *)
Record File : Type := mkFile {
  file_name : string;
  file_type : string;
  file_bytes : list Byte.byte
}.

Definition is_printable_ascii (c : ascii) : bool :=
  let n := nat_of_ascii c in (32 <=? n)%nat && (n <=? 126)%nat.

Definition ascii_lowercase (c : ascii) : ascii :=
  let n := nat_of_ascii c in
  if (65 <=? n)%nat && (n <=? 90)%nat then ascii_of_nat (n + 32) else c.

Fixpoint string_forallb (f : ascii -> bool) (s : string) : bool :=
  match s with
  | EmptyString => true
  | String c r => f c && string_forallb f r
  end.

Fixpoint string_map (f : ascii -> ascii) (s : string) : string :=
  match s with
  | EmptyString => EmptyString
  | String c r => String (f c) (string_map f r)
  end.

(** The [type] a [File] ends up with (File API, constructor steps): a type
    with a character outside U+0020..U+007E becomes the empty string, any
    other type is converted to ASCII lower case. *)
Definition normalize_type (t : string) : string :=
  if string_forallb is_printable_ascii t then string_map ascii_lowercase t else EmptyString.

(** [new File([u8arr], filename, {type: mime})] *)
Definition new_File (u8arr : list Byte.byte) (filename mime : string) : File :=
  {| file_name := filename; file_type := normalize_type mime; file_bytes := u8arr |}.

(** JSON values, as produced by [JSON.parse]; a number is a finite double,
    hence a rational. *)
Inductive JsonValue : Type :=
| JNull
| JBool (b : bool)
| JNumber (num den : Z)
| JString (s : string)
| JArray (items : list JsonValue)
| JObject (fields : list (string * JsonValue)).

(* ===================================================================== *)
(** ** geminiService.ts: data                                            *)
(* ===================================================================== *)

Record Artist : Type := mkArtist {
  name : string;
  description : option string;
  address : option string;
  website : option string;
  specialties : option (list string);
  availability : option string;
  portfolioUrl : option string;
  portfolio : option (list string);
  latitude : option (Z * Z);
  longitude : option (Z * Z);
  styleMatch : option bool
}.

(** [{ name: n } as Artist] *)
Definition artist_named (n : string) : Artist :=
  mkArtist n None None None None None None None None None None.

(** A grounding chunk's [web] object; a [GroundingSource] is one whose
    [uri] and [title] are present. *)
Record Web : Type := mkWeb {
  uri : option string;
  title : option string
}.

Record GroundingChunk : Type := { web : option Web }.

Record GroundingMetadata : Type := { groundingChunks : option (list GroundingChunk) }.

Record InlineData : Type := mkInlineData {
  mimeType : option string;
  data : option string
}.

(** A part of a response: the fields are optional, as the code reads them. *)
Record Part : Type := mkPart {
  inlineData : option InlineData;
  part_text : option string
}.

Record Content : Type := { parts : option (list Part) }.

Record Candidate : Type := mkCandidate {
  content : option Content;
  finishReason : option string;
  groundingMetadata : option GroundingMetadata
}.

Record PromptFeedback : Type := mkPromptFeedback {
  blockReason : option string;
  blockReasonMessage : option string
}.

Record GenerateContentResponse : Type := mkResponse {
  promptFeedback : option PromptFeedback;
  candidates : option (list Candidate);
  text : option string
}.

Record Image : Type := { imageBytes : string; image_mimeType : string }.

Record GeneratedImage : Type := { image : Image }.

Record GenerateImagesResponse : Type := { generatedImages : option (list GeneratedImage) }.

(** Requests. *)
Record GenerateImagesParams : Type := {
  images_model : string;
  images_prompt : string;
  numberOfImages : nat;
  outputMimeType : string;
  aspectRatio : string
}.

(** A part of a request: [{ inlineData: { mimeType, data } }] or [{ text }]. *)
Inductive RequestPart : Type :=
| InlineDataPart (mime b64 : string)
| TextPart (t : string).

Inductive Modality : Type := IMAGE | TEXT.

Inductive ContentConfig : Type :=
| NoConfig
| ResponseModalities (l : list Modality)
| GoogleSearchTool.

Record GenerateContentParams : Type := {
  content_model : string;
  content_parts : list RequestPart;
  content_config : ContentConfig
}.

(** An entry of a chat history: [{ role, parts: [{ text }] }]. *)
Record HistoryEntry : Type := { role : string; history_parts : list string }.

(** [ai.chats.create({ model, config, history })] followed by
    [chat.sendMessage({ message })]: what reaches the chat API. A chat
    created without [history] starts from the empty one. *)
Record ChatRequest : Type := mkChatRequest {
  chat_model : string;
  chat_systemInstruction : string;
  chat_history : list HistoryEntry;
  chat_message : string
}.

(** The hosted API, as seen from the program: what each call answers. *)
Record HostedApi : Type := {
  generateImages : GenerateImagesParams -> Outcome GenerateImagesResponse;
  generateContent : GenerateContentParams -> Outcome GenerateContentResponse;
  sendMessage : ChatRequest -> Outcome GenerateContentResponse
}.

Record ArtistSearchResult : Type := mkArtistSearchResult {
  artists : JsonValue;
  sources : list Web
}.

(** An entry of a conversation. *)
Record Message : Type := mkMessage {
  sender : string;
  msg_text : string;
  timestamp : string
}.

(* ===================================================================== *)
(** ** App.tsx: data                                                     *)
(* ===================================================================== *)

Inductive AppStep : Type := START | DESIGN | TRY_ON | DONE | FIND_ARTIST | GALLERY.

Inductive ContractStatus : Type := Pending | Approved | InProgress | Completed.

Record Contract : Type := mkContract {
  status : ContractStatus;
  price : string;
  appointmentDate : string
}.

Record Project : Type := mkProject {
  id : string;
  (* a string by its interface; [null] when the booking dialog saves with no
     design at hand (its non-null assertion is not checked at run time) *)
  designImage : option string;
  stencilImage : option string;
  artist : Artist;
  savedAt : string;
  conversation : list Message;
  contract : Contract
}.

(** [Partial<Project>]: every field may be absent. *)
Record PartialProject : Type := mkPartial {
  upd_id : option string;
  upd_designImage : option (option string);
  upd_stencilImage : option (option string);
  upd_artist : option Artist;
  upd_savedAt : option string;
  upd_conversation : option (list Message);
  upd_contract : option Contract
}.

(** What the program needs from the browser. *)
Class Platform : Type := {
  (* window.atob: the binary string, or an InvalidCharacterError *)
  atob : string -> Outcome string;
  (* FileReader.readAsDataURL, resolved or rejected *)
  readAsDataURL : File -> Outcome string;
  (* JSON.parse, or its SyntaxError *)
  JSON_parse : string -> Outcome JsonValue;
  (* JSON.stringify and JSON.parse on the projects array *)
  JSON_stringify : list Project -> string;
  JSON_parse_projects : string -> Outcome (list Project);
  (* whether the storage area accepts these contents (quota) *)
  storage_accepts : gmap string string -> bool;
  (* the message of the TypeError for reading a property of undefined *)
  undefined_read_message : string -> string
}.

(* ===================================================================== *)
(** ** geminiService.ts: the prompts                                     *)
(* ===================================================================== *)

Definition tattooDesign_fullPrompt (prompt : string) (stylePrompt : option string) : string :=
  "
      Generate a high-quality, professional tattoo design based on the following concept: " +:+ dq +:+ prompt +:+ dq +:+ ".

      **Style Guidance:**
      - The output must be a clean piece of artwork, suitable for a tattoo flash sheet.
      - Render the design primarily in black ink on a solid, pure white background (#FFFFFF).
      - Emphasize clear, sharp linework and well-defined shapes. Avoid overly sketchy or blurry styles.
      - " +:+ (if truthy stylePrompt then "Incorporate the following artistic style: " +:+ dq +:+ interp stylePrompt +:+ dq +:+ "." else "Use a versatile, modern illustration style.") +:+ "

      **Negative Constraints (What to AVOID):**
      - Do NOT show the tattoo on any skin or body part.
      - Do NOT include any background elements, textures, or colors. The background must be pure white.
      - Do NOT depict hands, tattoo machines, or any other real-world objects. The image should only contain the artwork itself.
      - Do NOT generate a photograph of an existing tattoo. This is a design concept.

      The final image should be centered and ready for an artist to use as a stencil.
    ".

Definition describe_prompt : string :=
  "You are an art critic. Concisely describe the artistic style of this image in a way that can be used as a prompt for another AI image generator. Focus on style, mood, and technique (e.g., " +:+ dq +:+ "fine-line illustration" +:+ dq +:+ ", " +:+ dq +:+ "bold traditional with heavy blacks" +:+ dq +:+ ", " +:+ dq +:+ "ethereal watercolor style with soft gradients" +:+ dq +:+ "). Do not describe the subject matter. Give me only the style description.".

Definition blend_prompt : string :=
  "
        **Persona:** You are an expert digital artist specializing in photorealistic virtual tattoo application.

        **Task:** The user has already placed a tattoo design onto their photo. Your task is to seamlessly and realistically blend the tattoo layer with the user's skin in the underlying photo layer.

        **Technical Instructions:**
        1.  **Contour Mapping:** The tattoo must wrap perfectly around the natural curves and contours of the body it has been placed on. It should not look flat or like a sticker.
        2.  **Lighting and Shadow:** Precisely match the lighting of the tattoo to the ambient lighting in the user's photo. Accurately replicate existing shadows and highlights on the skin over the tattoo.
        3.  **Skin Texture Blending:** Integrate the tattoo with the underlying skin texture. The skin's pores and fine lines should be subtly visible through the ink. Apply a slight translucency to the ink to mimic it being under the top layer of skin.
        4.  **Color Integrity:** Maintain the original colors and details of the tattoo design, only adjusting them for lighting and blending.
        
        **Constraints:**
        - Do not modify any part of the user's photo except for blending the tattoo.
        - Do not change the position, size, or rotation of the tattoo.
        - Do not add any text, watermarks, or other artifacts.
        - The final output must be ONLY the edited photograph.
    ".

Definition stencil_fullPrompt : string :=
  "
        You are a professional tattoo artist's assistant. Your task is to convert the provided full-color tattoo design into a clean, precise black-and-white stencil or outline.

        **Instructions:**
        1.  **Extract Linework:** Trace all the essential lines of the design. The output should be only the linework.
        2.  **Remove Shading & Color:** Eliminate all color, shading, gradients, and textures.
        3.  **Output Style:** The result must be sharp, high-contrast black lines on a solid, pure white background.
        4.  **Preserve Detail:** Maintain the integrity and all important details of the original design.
        
        The final output must be ONLY the generated stencil image, suitable for a tattoo artist to use for transfer. Do not add any other elements.
    ".

Definition findArtists_textPrompt (location : string) (image : option File) : string :=
  "
        You are an expert data extractor. Your task is to find tattoo artists and studios in " +:+ dq +:+ location +:+ dq +:+ " and return the data in a specific JSON format.
        " +:+ (if image is Some _ then "An image has been provided as a style reference. Analyze its artistic style (e.g., photorealism, geometric, watercolor, traditional, fine-line). You MUST analyze the portfolios of the artists you find and set 'styleMatch' to true for artists whose work is a strong match for the provided style." else EmptyString) +:+ "

        For each artist or studio found, you MUST provide the following information in a JSON object. Adhere strictly to the keys and data types.

        - name: (string) The studio or artist's full name.
        - description: (string) A concise one-sentence description of their work or specialty.
        - address: (string) The complete physical address.
        - latitude: (number) The geographic latitude of the address. This is required.
        - longitude: (number) The geographic longitude of the address. This is required.
        - website: (string | null) The main website URL.
        - specialties: (string[]) An array of strings listing their specific tattoo styles (e.g., [" +:+ dq +:+ "Realism" +:+ dq +:+ ", " +:+ dq +:+ "Fine-line" +:+ dq +:+ ", " +:+ dq +:+ "Japanese Traditional" +:+ dq +:+ "]). If not explicitly stated, infer styles from the description.
        - availability: (string | null) A short status like " +:+ dq +:+ "Accepting new clients" +:+ dq +:+ ", " +:+ dq +:+ "Books opening soon" +:+ dq +:+ ", or " +:+ dq +:+ "Books currently closed" +:+ dq +:+ ".
        - portfolioUrl: (string | null) A direct link to their primary portfolio (e.g., Instagram, official gallery).
        - portfolio: (string[]) An array of 3-5 direct URLs to images of their past work. These must be direct image links (ending in .jpg, .png, etc.), not links to pages.
        - styleMatch: (boolean) " +:+ (if image is Some _ then "Set to true if their portfolio style matches the provided image's style, otherwise false." else "Set to false.") +:+ "

        **CRITICAL INSTRUCTIONS:**
        - Your entire response MUST be a single, valid JSON array of these objects.
        - Do NOT include any text, markdown formatting (like ```json), or explanations before or after the JSON array.
        - If a piece of information cannot be found, use `null` for string fields and an empty array `[]` for array fields.
        - Latitude and Longitude are mandatory. You must find the coordinates for the given address.
    ".

Definition artist_systemInstruction (artist : Artist) : string :=
  "
        You are roleplaying as " +:+ name artist +:+ ", a professional tattoo artist.
        Your persona: You are helpful, professional, and passionate about your craft.
        Your specialties are: " +:+ or_else (option_map (join ", ") (specialties artist)) "various styles" +:+ ".
        Your availability is: " +:+ or_else (availability artist) "not specified" +:+ ".
        
        Instructions:
        - Respond to the user's message in a conversational and helpful way, staying in character as the artist.
        - Keep your responses concise and to the point.
        - You can discuss tattoo ideas, placement, pricing concepts (give estimates, not firm quotes), and scheduling.
        - Do not break character. Do not mention that you are an AI.
    ".

(* ===================================================================== *)
(** ** geminiService.ts: the functions                                   *)
(* ===================================================================== *)

Section Service.
Context `{Platform}.

(** The part of [fileToPart] that follows the read: split at the commas,
    take the MIME type from the first piece and the payload from the second. *)
Definition fileToPart_parse (dataUrl : string) : Outcome RequestPart :=
  let arr := split_on ","%char dataUrl in
  if (length arr <? 2)%nat then Throw (NewError "Invalid data URL")
  else
    let mimeMatch := match_mime (nth 0 arr EmptyString) in
    match mimeMatch with
    | Some (String c r) =>
        let mimeType := String c r in
        let data := nth 1 arr EmptyString in
        Return (InlineDataPart mimeType data)
    | _ => Throw (NewError "Could not parse MIME type from data URL")
    end.

Definition fileToPart (file : File) : Outcome RequestPart :=
  let* dataUrl := readAsDataURL file in
  fileToPart_parse dataUrl.

(** [response.candidates?.[0]] *)
Definition first_candidate (response : GenerateContentResponse) : option Candidate :=
  candidates response ≫= head.

Definition has_inlineData (part : Part) : bool :=
  match inlineData part with
  | Some _ => true
  | None => false
  end.

Definition handleImageEditApiResponse
    (response : GenerateContentResponse) (context : string) : Outcome string :=
  if truthy (promptFeedback response ≫= blockReason) then
    let errorMessage :=
      "Request was blocked. Reason: " +:+ interp (promptFeedback response ≫= blockReason)
      +:+ ". " +:+ or_else (promptFeedback response ≫= blockReasonMessage) EmptyString in
    Throw (NewError errorMessage)
  else
    let imagePartFromResponse :=
      ((first_candidate response ≫= content) ≫= parts) ≫= List.find has_inlineData in
    match imagePartFromResponse ≫= inlineData with
    | Some img =>
        Return ("data:" +:+ interp (mimeType img) +:+ ";base64," +:+ interp (data img))
    | None =>
        let finishReason := first_candidate response ≫= finishReason in
        if truthy finishReason && negb (String.eqb (interp finishReason) "STOP") then
          let errorMessage :=
            "Image generation for " +:+ context +:+ " stopped unexpectedly. Reason: "
            +:+ interp finishReason +:+ ". This often relates to safety settings." in
          Throw (NewError errorMessage)
        else
          let textFeedback := trim <$> text response in
          let errorMessage :=
            "The AI model did not return an image for the " +:+ context +:+ ". "
            +:+ (if truthy textFeedback
                 then "Feedback: " +:+ dq +:+ interp textFeedback +:+ dq
                 else "No additional feedback was provided.") in
          Throw (NewError errorMessage)
    end.

(** [response.text.trim()]: a TypeError when the response has no text. *)
Definition text_trim (response : GenerateContentResponse) : Outcome string :=
  match text response with
  | Some t => Return (trim t)
  | None => Throw (RaisedError "TypeError" (undefined_read_message "trim"))
  end.

Definition image_data_uri (img : GeneratedImage) : string :=
  "data:" +:+ image_mimeType (image img) +:+ ";base64," +:+ imageBytes (image img).

Definition generateTattooDesign (api : HostedApi)
    (prompt : string) (stylePrompt : option string) : Outcome (list string) :=
  let fullPrompt := tattooDesign_fullPrompt prompt stylePrompt in
  try_catch
    (let* response := generateImages api
         {| images_model := "imagen-4.0-generate-001";
            images_prompt := fullPrompt;
            numberOfImages := 4;
            outputMimeType := "image/png";
            aspectRatio := "1:1" |} in
     match generatedImages response with
     | None | Some [] => Throw (NewError "The AI did not return any images.")
     | Some imgs => Return (map image_data_uri imgs)
     end)
    (fun error =>
       if instanceof_Error error
       then Throw (NewError ("Failed to generate tattoo designs. " +:+ message_of error))
       else Throw (NewError "An unknown error occurred while generating tattoo designs.")).

Definition searchReferenceImages (api : HostedApi) (prompt : string) : Outcome (list string) :=
  try_catch
    (let* response := generateImages api
         {| images_model := "imagen-4.0-generate-001";
            images_prompt := "High-quality, artistic reference image for inspiration: " +:+ prompt +:+ ".";
            numberOfImages := 4;
            outputMimeType := "image/jpeg";
            aspectRatio := "1:1" |} in
     match generatedImages response with
     | None | Some [] => Throw (NewError "The AI did not return any reference images.")
     | Some imgs => Return (map image_data_uri imgs)
     end)
    (fun error =>
       Throw (NewError ("Failed to find reference images. "
                        +:+ (if instanceof_Error error then message_of error else EmptyString)))).

Definition describeImageStyle (api : HostedApi) (image : File) : Outcome string :=
  let* imagePart := fileToPart image in
  let* response := generateContent api
      {| content_model := "gemini-2.5-flash";
         content_parts := [imagePart; TextPart describe_prompt];
         content_config := NoConfig |} in
  text_trim response.

Definition blendVirtualTattoo (api : HostedApi) (composedImage : File) : Outcome string :=
  let* composedImagePart := fileToPart composedImage in
  let prompt := blend_prompt in
  let* response := generateContent api
      {| content_model := "gemini-2.5-flash-image-preview";
         content_parts := [composedImagePart; TextPart prompt];
         content_config := ResponseModalities [IMAGE; TEXT] |} in
  handleImageEditApiResponse response "virtual tattoo blending".

Definition generateTattooStencil (api : HostedApi) (image : File) : Outcome string :=
  let* imagePart := fileToPart image in
  let fullPrompt := stencil_fullPrompt in
  let* response := generateContent api
      {| content_model := "gemini-2.5-flash-image-preview";
         content_parts := [imagePart; TextPart fullPrompt];
         content_config := ResponseModalities [IMAGE; TEXT] |} in
  handleImageEditApiResponse response "tattoo stencil generation".

(** [.filter((web) => web?.uri && web?.title)]: what passes is a defined
    object, so the result is read as a list of them. *)
Fixpoint filter_webs (l : list (option Web)) : list Web :=
  match l with
  | [] => []
  | Some w :: r =>
      if truthy (uri w) && truthy (title w) then w :: filter_webs r else filter_webs r
  | None :: r => filter_webs r
  end.

(** The reducer that removes duplicates: [current] is pushed unless an item
    with the same [uri] is already in [acc]. *)
Definition push_unless_seen (acc : list Web) (current : Web) : list Web :=
  match List.find (fun item => bool_decide (uri item = uri current)) acc with
  | Some _ => acc
  | None => acc ++ [current]
  end.

Definition grounding_sources (response : GenerateContentResponse) : list Web :=
  let groundingChunks :=
    default [] ((first_candidate response ≫= groundingMetadata) ≫= groundingChunks) in
  fold_left push_unless_seen (filter_webs (map web groundingChunks)) [].

Definition findArtists (api : HostedApi)
    (location : string) (image : option File) : Outcome ArtistSearchResult :=
  let textPrompt := findArtists_textPrompt location image in
  let* parts :=
    match image with
    | Some f => let* imagePart := fileToPart f in Return [imagePart]
    | None => Return []
    end in
  let parts := parts ++ [TextPart textPrompt] in
  try_catch
    (let* response := generateContent api
         {| content_model := "gemini-2.5-flash";
            content_parts := parts;
            content_config := GoogleSearchTool |} in
     let* text := text_trim response in
     let* artists :=
       try_catch
         (let jsonString := trim (strip_fences text) in
          JSON_parse jsonString)
         (fun e => Throw (NewError
            "The AI returned a response that could not be understood. Please try a different search.")) in
     let sources := grounding_sources response in
     Return {| artists := artists; sources := sources |})
    (fun error =>
       Throw (NewError ("Failed to find artists. "
                        +:+ (if instanceof_Error error then message_of error else EmptyString)))).

(** The request of [generateArtistResponse] to the chat API. *)
Definition generateArtistResponse_request
    (conversationHistory : list Message) (artist : Artist)
    (userMessage model : string) : ChatRequest :=
  let history :=
    map (fun m => {| role := if String.eqb (sender m) "user" then "user" else "model";
                     history_parts := [msg_text m] |}) conversationHistory in
  (* history.pop() *)
  let history := removelast history in
  let systemInstruction := artist_systemInstruction artist in
  (* ai.chats.create({ model, config: { systemInstruction } }): no history *)
  {| chat_model := model;
     chat_systemInstruction := systemInstruction;
     chat_history := [];
     chat_message := userMessage |}.

Definition generateArtistResponse (api : HostedApi)
    (conversationHistory : list Message) (artist : Artist)
    (userMessage model : string) : Outcome string :=
  try_catch
    (let* response :=
       sendMessage api (generateArtistResponse_request conversationHistory artist userMessage model) in
     text_trim response)
    (fun error => Throw (NewError "Failed to get a response from the artist AI.")).

End Service.

(* ===================================================================== *)
(** ** App.tsx: dataURLtoFile                                            *)
(* ===================================================================== *)

(** [bstr.charCodeAt(n)], stored in a [Uint8Array]. *)
Definition charCodeAt (bstr : string) (n : nat) : Byte.byte :=
  match String.get n bstr with
  | Some c => byte_of_ascii c
  | None => Byte.x00
  end.

(** [while (n--) { u8arr[n] = bstr.charCodeAt(n); }] *)
Fixpoint fill_u8arr (bstr : string) (n : nat) (u8arr : list Byte.byte) : list Byte.byte :=
  match n with
  | O => u8arr
  | S n' => fill_u8arr bstr n' (<[n' := charCodeAt bstr n']> u8arr)
  end.

Definition dataURLtoFile `{Platform} (dataurl filename : string) : Outcome File :=
  let arr := split_on ","%char dataurl in
  if (length arr <? 2)%nat then Throw (NewError "Invalid data URL")
  else
    let mimeMatch := match_mime (nth 0 arr EmptyString) in
    match mimeMatch with
    | Some (String c r) =>
        let mime := String c r in
        let* bstr := atob (nth 1 arr EmptyString) in
        let n := String.length bstr in
        let u8arr := fill_u8arr bstr n (replicate n Byte.x00) in
        Return (new_File u8arr filename mime)
    | _ => Throw (NewError "Could not parse MIME type from data URL")
    end.

(* ===================================================================== *)
(** ** App.tsx: the state of the component                               *)
(* ===================================================================== *)

(** The [useState] cells of [App] that its handlers read or write. The
    cells that only drive the view of the artist list (filters, sort order,
    map centre, selected card, the Konva selection) and the text of the
    reference search box are left out: no handler below reads them. *)
Record AppState : Type := mkAppState {
  appStep : AppStep;
  prompt : string;
  generatedTattoos : list string;
  selectedTattoo : option string;
  tryOnImage : option string;
  finalImage : option string;
  st_artists : JsonValue;
  artistSearchSources : list Web;
  bookingArtist : option Artist;
  projects : list Project;
  viewingProject : option Project;
  referenceImages : list string;
  selectedReferenceImage : option string;
  styleDescription : string;
  locationSearch : string;
  searchedForArtists : bool
}.

(** Field updates, one per [useState] setter. *)
Definition with_appStep (v : AppStep) (s : AppState) : AppState :=
  let 'mkAppState _ x1 x2 x3 x4 x5 x6 x7 x8 x9 x10 x11 x12 x13 x14 x15 := s in
  mkAppState v x1 x2 x3 x4 x5 x6 x7 x8 x9 x10 x11 x12 x13 x14 x15.

Definition with_prompt (v : string) (s : AppState) : AppState :=
  let 'mkAppState x0 _ x2 x3 x4 x5 x6 x7 x8 x9 x10 x11 x12 x13 x14 x15 := s in
  mkAppState x0 v x2 x3 x4 x5 x6 x7 x8 x9 x10 x11 x12 x13 x14 x15.

Definition with_generatedTattoos (v : list string) (s : AppState) : AppState :=
  let 'mkAppState x0 x1 _ x3 x4 x5 x6 x7 x8 x9 x10 x11 x12 x13 x14 x15 := s in
  mkAppState x0 x1 v x3 x4 x5 x6 x7 x8 x9 x10 x11 x12 x13 x14 x15.

Definition with_selectedTattoo (v : option string) (s : AppState) : AppState :=
  let 'mkAppState x0 x1 x2 _ x4 x5 x6 x7 x8 x9 x10 x11 x12 x13 x14 x15 := s in
  mkAppState x0 x1 x2 v x4 x5 x6 x7 x8 x9 x10 x11 x12 x13 x14 x15.

Definition with_tryOnImage (v : option string) (s : AppState) : AppState :=
  let 'mkAppState x0 x1 x2 x3 _ x5 x6 x7 x8 x9 x10 x11 x12 x13 x14 x15 := s in
  mkAppState x0 x1 x2 x3 v x5 x6 x7 x8 x9 x10 x11 x12 x13 x14 x15.

Definition with_finalImage (v : option string) (s : AppState) : AppState :=
  let 'mkAppState x0 x1 x2 x3 x4 _ x6 x7 x8 x9 x10 x11 x12 x13 x14 x15 := s in
  mkAppState x0 x1 x2 x3 x4 v x6 x7 x8 x9 x10 x11 x12 x13 x14 x15.

Definition with_st_artists (v : JsonValue) (s : AppState) : AppState :=
  let 'mkAppState x0 x1 x2 x3 x4 x5 _ x7 x8 x9 x10 x11 x12 x13 x14 x15 := s in
  mkAppState x0 x1 x2 x3 x4 x5 v x7 x8 x9 x10 x11 x12 x13 x14 x15.

Definition with_artistSearchSources (v : list Web) (s : AppState) : AppState :=
  let 'mkAppState x0 x1 x2 x3 x4 x5 x6 _ x8 x9 x10 x11 x12 x13 x14 x15 := s in
  mkAppState x0 x1 x2 x3 x4 x5 x6 v x8 x9 x10 x11 x12 x13 x14 x15.

Definition with_bookingArtist (v : option Artist) (s : AppState) : AppState :=
  let 'mkAppState x0 x1 x2 x3 x4 x5 x6 x7 _ x9 x10 x11 x12 x13 x14 x15 := s in
  mkAppState x0 x1 x2 x3 x4 x5 x6 x7 v x9 x10 x11 x12 x13 x14 x15.

Definition with_projects (v : list Project) (s : AppState) : AppState :=
  let 'mkAppState x0 x1 x2 x3 x4 x5 x6 x7 x8 _ x10 x11 x12 x13 x14 x15 := s in
  mkAppState x0 x1 x2 x3 x4 x5 x6 x7 x8 v x10 x11 x12 x13 x14 x15.

Definition with_viewingProject (v : option Project) (s : AppState) : AppState :=
  let 'mkAppState x0 x1 x2 x3 x4 x5 x6 x7 x8 x9 _ x11 x12 x13 x14 x15 := s in
  mkAppState x0 x1 x2 x3 x4 x5 x6 x7 x8 x9 v x11 x12 x13 x14 x15.

Definition with_referenceImages (v : list string) (s : AppState) : AppState :=
  let 'mkAppState x0 x1 x2 x3 x4 x5 x6 x7 x8 x9 x10 _ x12 x13 x14 x15 := s in
  mkAppState x0 x1 x2 x3 x4 x5 x6 x7 x8 x9 x10 v x12 x13 x14 x15.

Definition with_selectedReferenceImage (v : option string) (s : AppState) : AppState :=
  let 'mkAppState x0 x1 x2 x3 x4 x5 x6 x7 x8 x9 x10 x11 _ x13 x14 x15 := s in
  mkAppState x0 x1 x2 x3 x4 x5 x6 x7 x8 x9 x10 x11 v x13 x14 x15.

Definition with_styleDescription (v : string) (s : AppState) : AppState :=
  let 'mkAppState x0 x1 x2 x3 x4 x5 x6 x7 x8 x9 x10 x11 x12 _ x14 x15 := s in
  mkAppState x0 x1 x2 x3 x4 x5 x6 x7 x8 x9 x10 x11 x12 v x14 x15.

Definition with_locationSearch (v : string) (s : AppState) : AppState :=
  let 'mkAppState x0 x1 x2 x3 x4 x5 x6 x7 x8 x9 x10 x11 x12 x13 _ x15 := s in
  mkAppState x0 x1 x2 x3 x4 x5 x6 x7 x8 x9 x10 x11 x12 x13 v x15.

Definition with_searchedForArtists (v : bool) (s : AppState) : AppState :=
  let 'mkAppState x0 x1 x2 x3 x4 x5 x6 x7 x8 x9 x10 x11 x12 x13 x14 _ := s in
  mkAppState x0 x1 x2 x3 x4 x5 x6 x7 x8 x9 x10 x11 x12 x13 x14 v.


Definition initial_state : AppState :=
  {| appStep := START; prompt := EmptyString; generatedTattoos := [];
     selectedTattoo := None; tryOnImage := None; finalImage := None;
     st_artists := JArray []; artistSearchSources := []; bookingArtist := None;
     projects := []; viewingProject := None; referenceImages := [];
     selectedReferenceImage := None; styleDescription := EmptyString;
     locationSearch := "New York City"; searchedForArtists := false |}.

(** [Date.now()] and [new Date().toISOString()], as read by a handler. *)
Record Clock : Type := mkClock { now : N; iso : string }.

(** A call started by [mutation.mutate(vars)] and not yet settled. *)
Inductive Mutation : Type :=
| MGenerateTattoo (p : string) (stylePrompt : option string)
| MBlendTattoo (image : File)
| MFindArtists (location : string) (image : option File)
| MSearchReference (q : string)
| MDescribeStyle (image : File)
| MGenerateStencil (imageFile : File)
| MArtistResponse (history : list Message) (a : Artist) (message model : string).

(** The component, the browser's local storage, the calls in flight and the
    error some mutation ended with (it brings up the error panel). *)
Record World : Type := mkWorld {
  ui : AppState;
  localStorage : gmap string string;
  inflight : list Mutation;
  mutation_error : option Thrown
}.

Definition with_ui (v : AppState) (w : World) : World :=
  mkWorld v (localStorage w) (inflight w) (mutation_error w).
Definition with_localStorage (v : gmap string string) (w : World) : World :=
  mkWorld (ui w) v (inflight w) (mutation_error w).
Definition with_inflight (v : list Mutation) (w : World) : World :=
  mkWorld (ui w) (localStorage w) v (mutation_error w).
Definition with_mutation_error (v : option Thrown) (w : World) : World :=
  mkWorld (ui w) (localStorage w) (inflight w) v.

(** A handler runs on the world and may throw; what it did before the
    throw stays done (a queued [setState] is still applied). *)
Definition Handler (A : Type) : Type := World -> Outcome A * World.

#[export] Instance Handler_ret : MRet Handler := fun A a w => (Return a, w).
#[export] Instance Handler_bind : MBind Handler := fun A B k m w =>
  match m w with
  | (Return a, w') => k a w'
  | (Throw e, w') => (Throw e, w')
  end.

Definition lift {A} (o : Outcome A) : Handler A := fun w => (o, w).

(** [try { body } catch (error) { handler(error) }] around effects. *)
Definition hcatch {A} (body : Handler A) (handler : Thrown -> Handler A) : Handler A :=
  fun w =>
    match body w with
    | (Return a, w') => (Return a, w')
    | (Throw e, w') => handler e w'
    end.

Definition setState (f : AppState -> AppState) : Handler unit :=
  fun w => (Return tt, with_ui (f (ui w)) w).

Definition mutate (m : Mutation) : Handler unit :=
  fun w => (Return tt, with_inflight (inflight w ++ [m]) w).

Definition projects_key : string := "inkgenius_projects".

(** [{ ...p, ...updates }] *)
Definition merge_project (p : Project) (updates : PartialProject) : Project :=
  {| id := default (id p) (upd_id updates);
     designImage := default (designImage p) (upd_designImage updates);
     stencilImage := default (stencilImage p) (upd_stencilImage updates);
     artist := default (artist p) (upd_artist updates);
     savedAt := default (savedAt p) (upd_savedAt updates);
     conversation := default (conversation p) (upd_conversation updates);
     contract := default (contract p) (upd_contract updates) |}.

Definition no_updates : PartialProject := mkPartial None None None None None None None.

(** [{ stencilImage: data }] and [{ conversation: newConversation }] *)
Definition stencil_update (data : string) : PartialProject :=
  mkPartial None None (Some (Some data)) None None None None.
Definition conversation_update (newConversation : list Message) : PartialProject :=
  mkPartial None None None None None (Some newConversation) None.

(* ===================================================================== *)
(** ** App.tsx: the handlers                                             *)
(* ===================================================================== *)

Section App.
Context `{Platform}.

(** [localStorage.setItem(key, value)]: a QuotaExceededError when the
    storage area does not take the new contents. *)
Definition localStorage_setItem (key value : string) : Handler unit :=
  fun w =>
    let contents := <[key := value]> (localStorage w) in
    if storage_accepts contents
    then (Return tt, with_localStorage contents w)
    else (Throw (RaisedError "QuotaExceededError" "The quota has been exceeded."), w).

Definition localStorage_getItem (key : string) : Handler (option string) :=
  fun w => (Return (localStorage w !! key), w).

(** The effect run once after the first render: load the saved projects.
    Each handler below takes the render [r] it closes over: the values of the
    state cells it reads are those of that render, not of the world it runs
    in. *)
Definition loadProjects : Handler unit :=
  hcatch
    (savedProjects ← localStorage_getItem projects_key;
     if truthy savedProjects
     then loaded ← lift (JSON_parse_projects (interp savedProjects));
          setState (with_projects loaded)
     else mret tt)
    (fun error => mret tt).

Definition updateProject (r : AppState) (projectId : string) (updates : PartialProject)
    : Handler unit :=
  let updatedProjects :=
    map (fun p => if String.eqb (id p) projectId then merge_project p updates else p)
        (projects r) in
  setState (with_projects updatedProjects);;
  setState (fun s => with_viewingProject
                       (match viewingProject s with
                        | Some prev => Some (merge_project prev updates)
                        | None => None
                        end) s);;
  hcatch
    (localStorage_setItem projects_key (JSON_stringify updatedProjects))
    (fun error => mret tt).

Definition handleReset : Handler unit :=
  setState (with_appStep START);;
  setState (with_prompt EmptyString);;
  setState (with_generatedTattoos []);;
  setState (with_selectedTattoo None);;
  setState (with_tryOnImage None);;
  setState (with_finalImage None);;
  setState (with_st_artists (JArray []));;
  setState (with_searchedForArtists false).

Definition handleGenerateTattoo (r : AppState) : Handler unit :=
  if truthy (Some (trim (prompt r)))
  then mutate (MGenerateTattoo (prompt r) (Some (styleDescription r)))
  else mret tt.

Definition handleSelectTattoo (tattoo : string) : Handler unit :=
  setState (with_selectedTattoo (Some tattoo));;
  setState (with_appStep TRY_ON).

(** [reader.onload] of [handleTryOnImageUpload] *)
Definition handleTryOnImageLoaded (result : string) : Handler unit :=
  setState (with_tryOnImage (Some result)).

(** [stage] is [stageRef.current?.toDataURL(...)]: absent when no canvas is
    mounted. *)
Definition handleBlendTattoo (stage : option string) : Handler unit :=
  match stage with
  | Some dataURL =>
      file ← lift (dataURLtoFile dataURL "tattoo_try_on.png");
      mutate (MBlendTattoo file)
  | None => mret tt
  end.

Definition handleFindArtists (r : AppState) (fromStartScreen : bool) : Handler unit :=
  imageFile ← (if negb fromStartScreen && truthy (finalImage r)
               then f ← lift (dataURLtoFile (interp (finalImage r)) "final_design.png");
                    mret (Some f)
               else if negb fromStartScreen && truthy (selectedTattoo r)
               then f ← lift (dataURLtoFile (interp (selectedTattoo r)) "selected_design.png");
                    mret (Some f)
               else mret None);
  setState (with_searchedForArtists false);;
  mutate (MFindArtists (locationSearch r) imageFile);;
  if fromStartScreen then setState (with_appStep FIND_ARTIST) else mret tt.

Definition handleSaveProject (r : AppState) (c : Clock) (a : Artist) (design : option string)
    : Handler unit :=
  let newProject :=
    {| id := "proj_" +:+ decimal (now c);
       designImage := design;
       stencilImage := None;
       artist := a;
       savedAt := iso c;
       conversation := [];
       contract := {| status := Pending; price := EmptyString; appointmentDate := EmptyString |} |} in
  let updatedProjects := projects r ++ [newProject] in
  setState (with_projects updatedProjects);;
  localStorage_setItem projects_key (JSON_stringify updatedProjects).

Definition handleSearchReference (referenceSearchQuery : string) : Handler unit :=
  if truthy (Some (trim referenceSearchQuery))
  then mutate (MSearchReference referenceSearchQuery)
  else mret tt.

Definition handleSelectReferenceImage (r : AppState) (image : string) : Handler unit :=
  if bool_decide (selectedReferenceImage r = Some image) then
    setState (with_selectedReferenceImage None);;
    setState (with_styleDescription EmptyString)
  else
    setState (with_selectedReferenceImage (Some image));;
    file ← lift (dataURLtoFile image "reference.jpg");
    mutate (MDescribeStyle file).

(** [finalImage || selectedTattoo] *)
Definition design_at_hand (r : AppState) : option string :=
  if truthy (finalImage r) then finalImage r else selectedTattoo r.

(** The button of the booking dialog. *)
Definition sendConsultationRequest (r : AppState) (c : Clock) : Handler unit :=
  match bookingArtist r with
  | Some a =>
      handleSaveProject r c a (design_at_hand r);;
      setState (with_bookingArtist None)
  | None => mret tt
  end.

(** [dataURLtoFile(viewingProject.designImage, 'design.png')]: a TypeError
    when the design is [null]. *)
Definition design_file (p : Project) : Outcome File :=
  match designImage p with
  | Some d => dataURLtoFile d "design.png"
  | None => Throw (RaisedError "TypeError" (undefined_read_message "split"))
  end.

Definition generateStencilClicked (r : AppState) : Handler unit :=
  match viewingProject r with
  | Some vp => file ← lift (design_file vp); mutate (MGenerateStencil file)
  | None => mret tt
  end.

(** The delete button of the project dialog; [confirmed] is the answer of
    [window.confirm]. *)
Definition deleteProjectClicked (r : AppState) (confirmed : bool) : Handler unit :=
  match viewingProject r with
  | Some vp =>
      if confirmed then
        let updatedProjects :=
          List.filter (fun p => negb (String.eqb (id p) (id vp))) (projects r) in
        setState (with_projects updatedProjects);;
        localStorage_setItem projects_key (JSON_stringify updatedProjects);;
        setState (with_viewingProject None)
      else mret tt
  | None => mret tt
  end.

(** Enter in the message box of the project dialog. *)
Definition messageEntered (r : AppState) (value : string) (c : Clock) : Handler unit :=
  match viewingProject r with
  | Some vp =>
      if negb (String.eqb (trim value) EmptyString) then
        let userMessage := {| sender := "user"; msg_text := value; timestamp := iso c |} in
        let newConversation := conversation vp ++ [userMessage] in
        updateProject r (id vp) (conversation_update newConversation);;
        mutate (MArtistResponse newConversation (artist vp) value "gemini-2.5-flash")
      else mret tt
  | None => mret tt
  end.

(** [data.artists.flatMap(a => a.specialties || [])] goes through when
    [data.artists] is an array without [null] entries; otherwise it raises a
    TypeError. *)
Definition specialties_readable (data_artists : JsonValue) : bool :=
  match data_artists with
  | JArray items => forallb (fun a => match a with JNull => false | _ => true end) items
  | _ => false
  end.

(** A mutation settles: its [mutationFn] runs against the hosted API, then
    its [onSuccess] runs. [r] is the render the [onSuccess] callback closes
    over (which one it is lies with the query library) and [c] the clock it
    reads. *)
Definition settle (api : HostedApi) (r : AppState) (c : Clock) (m : Mutation) : Handler unit :=
  match m with
  | MGenerateTattoo p stylePrompt =>
      data ← lift (generateTattooDesign api p stylePrompt);
      setState (with_generatedTattoos data)
  | MBlendTattoo image =>
      data ← lift (blendVirtualTattoo api image);
      setState (with_finalImage (Some data));;
      setState (with_appStep DONE)
  | MFindArtists location image =>
      data ← lift (findArtists api location image);
      setState (with_st_artists (artists data));;
      setState (with_artistSearchSources (sources data));;
      (if specialties_readable (artists data) then mret tt
       else lift (Throw (RaisedError "TypeError" (undefined_read_message "flatMap"))));;
      setState (with_searchedForArtists true)
  | MSearchReference q =>
      data ← lift (searchReferenceImages api q);
      setState (with_referenceImages data)
  | MDescribeStyle image =>
      data ← lift (describeImageStyle api image);
      setState (with_styleDescription data)
  | MGenerateStencil imageFile =>
      data ← lift (generateTattooStencil api imageFile);
      match viewingProject r with
      | Some vp => updateProject r (id vp) (stencil_update data)
      | None => mret tt
      end
  | MArtistResponse history a message model =>
      data ← lift (generateArtistResponse api history a message model);
      match viewingProject r with
      | Some vp =>
          let newArtistMessage := {| sender := "artist"; msg_text := data; timestamp := iso c |} in
          let newConversation := conversation vp ++ [newArtistMessage] in
          updateProject r (id vp) (conversation_update newConversation)
      | None => mret tt
      end
  end.

(** The [i]-th call in flight settles; a failure of the call (or of its
    [onSuccess]) becomes the error of the mutation. *)
Definition settled (i : nat) (api : HostedApi) (r : AppState) (c : Clock) : Handler unit :=
  fun w =>
    match inflight w !! i with
    | Some m =>
        match settle api r c m (with_inflight (delete i (inflight w)) w) with
        | (Return _, w') => (Return tt, w')
        | (Throw e, w') => (Return tt, with_mutation_error (Some e) w')
        end
    | None => (Return tt, w)
    end.

(* ===================================================================== *)
(** ** App.tsx: events                                                   *)
(* ===================================================================== *)

(** What can happen to the mounted component: the user acts on an element
    that is rendered, a file read or a call in flight completes, or the page
    is reloaded from the error panel. *)
Inductive Event : Type :=
| EvReset
| EvShowGallery
| EvStart
| EvStartFindArtist
| EvSetPrompt (p : string)
| EvGenerateTattoo
| EvSearchReference (q : string)
| EvSelectReferenceImage (index : nat)
| EvSelectTattoo (index : nat)
| EvTryOnImageLoaded (result : string)
| EvBlendTattoo (canvas : string)
| EvFindArtistFromDone
| EvSaveDesign (c : Clock)
| EvStartOver
| EvSetLocation (l : string)
| EvSearchArtists
| EvContactArtist (a : Artist)
| EvCloseBooking
| EvSendConsultation (c : Clock)
| EvViewProject (index : nat)
| EvCloseProject
| EvGenerateStencil
| EvDeleteProject (confirmed : bool)
| EvSendMessage (value : string) (c : Clock)
| EvSettle (i : nat) (api : HostedApi) (closure : AppState) (c : Clock)
| EvReload.

Definition AppStep_eqb (a b : AppStep) : bool :=
  match a, b with
  | START, START | DESIGN, DESIGN | TRY_ON, TRY_ON
  | DONE, DONE | FIND_ARTIST, FIND_ARTIST | GALLERY, GALLERY => true
  | _, _ => false
  end.

Definition is_some {A} (o : option A) : bool :=
  match o with Some _ => true | None => false end.

(** The element that raises the event is rendered in this state. *)
Definition enabled (w : World) (e : Event) : bool :=
  let s := ui w in
  match e with
  | EvReset | EvShowGallery => true
  | EvStart | EvStartFindArtist => AppStep_eqb (appStep s) START
  | EvSetPrompt _ | EvGenerateTattoo | EvSearchReference _ => AppStep_eqb (appStep s) DESIGN
  | EvSelectReferenceImage i =>
      AppStep_eqb (appStep s) DESIGN && is_some (referenceImages s !! i)
  | EvSelectTattoo i =>
      AppStep_eqb (appStep s) DESIGN && is_some (generatedTattoos s !! i)
  | EvTryOnImageLoaded _ => true
  | EvBlendTattoo _ =>
      AppStep_eqb (appStep s) TRY_ON && truthy (selectedTattoo s) && truthy (tryOnImage s)
  | EvFindArtistFromDone | EvSaveDesign _ | EvStartOver =>
      AppStep_eqb (appStep s) DONE && truthy (finalImage s)
  | EvSetLocation _ | EvSearchArtists | EvContactArtist _ =>
      AppStep_eqb (appStep s) FIND_ARTIST
  | EvCloseBooking | EvSendConsultation _ => is_some (bookingArtist s)
  | EvViewProject i => AppStep_eqb (appStep s) GALLERY && is_some (projects s !! i)
  | EvCloseProject | EvDeleteProject _ | EvSendMessage _ _ => is_some (viewingProject s)
  | EvGenerateStencil =>
      match viewingProject s with
      | Some vp => negb (truthy (stencilImage vp))
      | None => false
      end
  | EvSettle i _ _ _ => is_some (inflight w !! i)
  | EvReload => is_some (mutation_error w)
  end.

(** The handler of each event, closed over the render [r]. *)
Definition dispatch (r : AppState) (e : Event) : Handler unit :=
  match e with
  | EvReset | EvStartOver => handleReset
  | EvShowGallery => setState (with_appStep GALLERY)
  | EvStart => setState (with_appStep DESIGN)
  | EvStartFindArtist =>
      setState (with_finalImage None);;
      setState (with_selectedTattoo None);;
      handleFindArtists r true
  | EvSetPrompt p => setState (with_prompt p)
  | EvGenerateTattoo => handleGenerateTattoo r
  | EvSearchReference q => handleSearchReference q
  | EvSelectReferenceImage i =>
      match referenceImages r !! i with
      | Some image => handleSelectReferenceImage r image
      | None => mret tt
      end
  | EvSelectTattoo i =>
      match generatedTattoos r !! i with
      | Some tattoo => handleSelectTattoo tattoo
      | None => mret tt
      end
  | EvTryOnImageLoaded result => handleTryOnImageLoaded result
  | EvBlendTattoo canvas => handleBlendTattoo (Some canvas)
  | EvFindArtistFromDone =>
      setState (with_appStep FIND_ARTIST);;
      handleFindArtists r false
  | EvSaveDesign c => handleSaveProject r c (artist_named "Unassigned") (finalImage r)
  | EvSetLocation l => setState (with_locationSearch l)
  | EvSearchArtists => handleFindArtists r false
  | EvContactArtist a => setState (with_bookingArtist (Some a))
  | EvCloseBooking => setState (with_bookingArtist None)
  | EvSendConsultation c => sendConsultationRequest r c
  | EvViewProject i =>
      match projects r !! i with
      | Some proj => setState (with_viewingProject (Some proj))
      | None => mret tt
      end
  | EvCloseProject => setState (with_viewingProject None)
  | EvGenerateStencil => generateStencilClicked r
  | EvDeleteProject confirmed => deleteProjectClicked r confirmed
  | EvSendMessage value c => messageEntered r value c
  | EvSettle i api closure c => settled i api closure c
  | EvReload => fun w => loadProjects (mkWorld initial_state (localStorage w) [] None)
  end.

(** One event: its handler runs on the current render; an exception that
    leaves the handler is reported and the state it reached stays. *)
Definition step (w : World) (e : Event) : option World :=
  if enabled w e then Some (snd (dispatch (ui w) e w)) else None.

(** The world after the first render and its effect. *)
Definition initial_world (storage : gmap string string) : World :=
  snd (loadProjects (mkWorld initial_state storage [] None)).

Fixpoint run (w : World) (events : list Event) : option World :=
  match events with
  | [] => Some w
  | e :: rest =>
      match step w e with
      | Some w' => run w' rest
      | None => None
      end
  end.


End App.

(* ===================================================================== *)
(** ** App.tsx: the view of the artists                                  *)
(* ===================================================================== *)

(** [s.toLowerCase()] on 8-bit code units: the letters A-Z and the capital
    letters of Latin-1 (U+00C0 to U+00DE, but for the multiplication sign). *)
Definition js_lowercase_char (c : ascii) : ascii :=
  let n := nat_of_ascii c in
  if ((65 <=? n)%nat && (n <=? 90)%nat)
     || ((192 <=? n)%nat && (n <=? 222)%nat && negb (n =? 215)%nat)
  then ascii_of_nat (n + 32) else c.

Definition toLowerCase (s : string) : string := string_map js_lowercase_char s.

(** [s.includes(sub)] on strings. *)
Fixpoint includes (sub s : string) : bool :=
  starts_with sub s
  || match s with
     | EmptyString => false
     | String _ r => includes sub r
     end.

(** [arr.includes(x)] on an array of strings. *)
Definition array_includes (arr : list string) (x : string) : bool :=
  existsb (String.eqb x) arr.

(** [arr.sort(compare)]: the sort is stable, so an element goes in front of
    the first element that does not have to come before it. *)
Fixpoint insert_sorted {A} (compare : A -> A -> Z) (x : A) (l : list A) : list A :=
  match l with
  | [] => [x]
  | y :: r =>
      if (compare x y <=? 0)%Z then x :: y :: r else y :: insert_sorted compare x r
  end.

Definition sort_by {A} (compare : A -> A -> Z) (l : list A) : list A :=
  fold_right (insert_sorted compare) [] l.

(** [a.styleMatch ? 1 : 0] *)
Definition styleMatch_rank (a : Artist) : Z :=
  match styleMatch a with
  | Some true => 1
  | _ => 0
  end.

(** [(artist.availability?.toLowerCase() || '').includes('accepting')], the
    test of the availability filter and of the badge of [ArtistCard]. *)
Definition isAccepting (a : Artist) : bool :=
  includes "accepting" (or_else (toLowerCase <$> availability a) EmptyString).

(** The predicate of the filter in [filteredArtists]. *)
Definition artist_shown (artistSpecialtyFilter : list string)
    (artistAvailabilityFilter : string) (a : Artist) : bool :=
  let specialtyMatch :=
    (length artistSpecialtyFilter =? 0)%nat
    || match specialties a with
       | Some l => existsb (fun s => array_includes artistSpecialtyFilter s) l
       | None => false
       end in
  let availabilityMatch :=
    String.eqb artistAvailabilityFilter "all" || isAccepting a in
  specialtyMatch && availabilityMatch.

Definition filteredArtists (artists : list Artist) (artistSpecialtyFilter : list string)
    (artistAvailabilityFilter artistSort : string) : list Artist :=
  let sorted :=
    if String.eqb artistSort "styleMatch"
    then sort_by (fun a b => styleMatch_rank b - styleMatch_rank a)%Z artists
    else artists in
  List.filter (artist_shown artistSpecialtyFilter artistAvailabilityFilter) sorted.

(** The update of [artistSpecialtyFilter] by the button of a specialty. *)
Definition toggle_specialty (spec : string) (prev : list string) : list string :=
  if array_includes prev spec
  then List.filter (fun s => negb (String.eqb s spec)) prev
  else prev ++ [spec].

(** [[...new Set(arr)]]: the elements in the order of their first
    occurrence. *)
Definition spread_set (arr : list string) : list string :=
  fold_left (fun acc x => if array_includes acc x then acc else acc ++ [x]) arr [].

(** [[...new Set(data.artists.flatMap(a => a.specialties || []))]] *)
Definition uniqueSpecialties (artists : list Artist) : list string :=
  spread_set (flat_map (fun a => default [] (specialties a)) artists).

(* ===================================================================== *)
(** ** Predicates of the further statements                              *)
(* ===================================================================== *)

Definition lacks (c : ascii) (s : string) : bool :=
  string_forallb (fun x => negb (Ascii.eqb x c)) s.

(** A MIME type that the pattern of the parsers takes whole: not empty, and
    without comma, semicolon or line terminator. *)
Definition parsable_char (c : ascii) : bool :=
  negb (Ascii.eqb c ","%char) && negb (Ascii.eqb c ";"%char) && negb (is_line_terminator c).

Definition parsable_mime (m : string) : bool :=
  negb (String.eqb m EmptyString) && string_forallb parsable_char m.

(** The string is empty or starts with a character that [trim] keeps. *)
Definition starts_clean (s : string) : bool :=
  match s with
  | EmptyString => true
  | String c _ => negb (is_js_space c)
  end.

Definition ends_clean (s : string) : bool := starts_clean (string_rev s).

(** The call of the service function of [m] against [api] is rejected
    with [e]. *)
Definition call_fails `{Platform} (api : HostedApi) (m : Mutation) (e : Thrown) : Prop :=
  match m with
  | MGenerateTattoo p stylePrompt => generateTattooDesign api p stylePrompt = Throw e
  | MBlendTattoo image => blendVirtualTattoo api image = Throw e
  | MFindArtists location image => findArtists api location image = Throw e
  | MSearchReference q => searchReferenceImages api q = Throw e
  | MDescribeStyle image => describeImageStyle api image = Throw e
  | MGenerateStencil imageFile => generateTattooStencil api imageFile = Throw e
  | MArtistResponse history a message model =>
      generateArtistResponse api history a message model = Throw e
  end.

(* ===================================================================== *)
(** ** Predicates of the statements                                      *)
(* ===================================================================== *)

Definition has_no_comma (s : string) : bool :=
  string_forallb (fun c => negb (Ascii.eqb c ","%char)) s.

Definition is_ascii_uppercase (c : ascii) : bool :=
  let n := nat_of_ascii c in (65 <=? n)%nat && (n <=? 90)%nat.

(** A character of a MIME type that comes back as it went in: printable
    ASCII, not an upper-case letter, and neither of the two characters the
    parsing of a data URL stops at. *)
Definition plain_mime_char (c : ascii) : bool :=
  is_printable_ascii c && negb (is_ascii_uppercase c)
  && negb (Ascii.eqb c ","%char) && negb (Ascii.eqb c ";"%char).

Definition plain_mime (m : string) : bool :=
  negb (String.eqb m EmptyString) && string_forallb plain_mime_char m.

(** The response carries a block reason. *)
Definition blocked (response : GenerateContentResponse) : bool :=
  truthy (promptFeedback response ≫= blockReason).

Definition parts_of (c : Candidate) : list Part := default [] (content c ≫= parts).

(** Some part of some candidate of the response contains [inlineData]. *)
Definition contains_image_part (response : GenerateContentResponse) : Prop :=
  exists c p, c ∈ default [] (candidates response) /\ p ∈ parts_of c
              /\ is_Some (inlineData p).

(** The parts of the first candidate, the only ones the code looks at. *)
Definition first_candidate_parts (response : GenerateContentResponse) : list Part :=
  default [] ((first_candidate response ≫= content) ≫= parts).

(** The message of the Error thrown when the first candidate has no image. *)
Definition no_image_message (response : GenerateContentResponse) (context : string) : string :=
  let finishReason := first_candidate response ≫= finishReason in
  if truthy finishReason && negb (String.eqb (interp finishReason) "STOP")
  then "Image generation for " +:+ context +:+ " stopped unexpectedly. Reason: "
       +:+ interp finishReason +:+ ". This often relates to safety settings."
  else "The AI model did not return an image for the " +:+ context +:+ ". "
       +:+ (if truthy (trim <$> text response)
            then "Feedback: " +:+ dq +:+ interp (trim <$> text response) +:+ dq
            else "No additional feedback was provided.").

(** [item] has the uri of [current]: the test of the reducer. *)
Definition same_uri (current item : Web) : bool := bool_decide (uri item = uri current).

(** The storage after an operation that ends with the projects
    [projects (ui w')] in memory: the entry of the projects is their
    [JSON.stringify] when the storage takes it, and the storage is as before
    when it does not. *)
Definition persisted_or_rejected `{Platform} (w w' : World) : Prop :=
  let contents := <[projects_key := JSON_stringify (projects (ui w'))]> (localStorage w) in
  localStorage w' = if storage_accepts contents then contents else localStorage w.

(** A handler keeps a relation between the world it starts in and the world
    it ends in, whether it returns or throws. *)
Definition preserves {A} (R : relation World) (h : Handler A) : Prop :=
  forall w, R w (snd (h w)).

(** Nothing but the entry of the projects differs in the storage. *)
Definition same_other_keys : relation World :=
  fun w w' => delete projects_key (localStorage w') = delete projects_key (localStorage w).

Definition is_blend (m : Mutation) : bool :=
  match m with MBlendTattoo _ => true | _ => false end.

(** The step, the selected tattoo and the final image are the same, and no
    blend has been started. *)
Definition same_wizard : relation World :=
  fun w w' =>
    appStep (ui w') = appStep (ui w)
    /\ selectedTattoo (ui w') = selectedTattoo (ui w)
    /\ finalImage (ui w') = finalImage (ui w)
    /\ forall m, m ∈ inflight w' -> is_blend m = true -> m ∈ inflight w.

(** The update of the state leaves the step and the two images alone. *)
Definition quiet (f : AppState -> AppState) : Prop :=
  forall s, appStep (f s) = appStep s
            /\ selectedTattoo (f s) = selectedTattoo s
            /\ finalImage (f s) = finalImage s.

(** Every blend in flight in [w'] was already in flight in [w]. *)
Definition blends_within (w w' : World) : Prop :=
  forall m, m ∈ inflight w' -> is_blend m = true -> m ∈ inflight w.



(* ===================================================================== *)
(** ** A small platform and a small API, to run the model on examples    *)
(* ===================================================================== *)

Definition base64_alphabet : string :=
  "ABCDEFGHIJKLMNOPQRSTUVWXYZabcdefghijklmnopqrstuvwxyz0123456789+/".

Fixpoint index_in (c : ascii) (s : string) (i : N) : option N :=
  match s with
  | EmptyString => None
  | String x r => if Ascii.eqb c x then Some i else index_in c r (N.succ i)
  end.

Fixpoint sextets_of (s : string) : option (list N) :=
  match s with
  | EmptyString => Some []
  | String c r =>
      match index_in c base64_alphabet 0, sextets_of r with
      | Some n, Some l => Some (n :: l)
      | _, _ => None
      end
  end.

Definition byte_char (n : N) : ascii := ascii_of_N (n mod 256).

Fixpoint bytes_of_sextets (l : list N) : string :=
  match l with
  | a :: b :: c :: d :: r =>
      let n := (a * 262144 + b * 4096 + c * 64 + d)%N in
      String (byte_char (n / 65536)) (String (byte_char (n / 256))
        (String (byte_char n) (bytes_of_sextets r)))
  | [a; b; c] =>
      let n := (a * 4096 + b * 64 + c)%N in
      String (byte_char (n / 1024)) (String (byte_char (n / 4)) EmptyString)
  | [a; b] => String (byte_char ((a * 64 + b) / 16)) EmptyString
  | _ => EmptyString
  end.

Fixpoint remove_spaces (s : string) : string :=
  match s with
  | EmptyString => EmptyString
  | String c r => if is_js_space c && negb (Ascii.eqb c (ascii_of_nat 160)) && negb (Ascii.eqb c (ascii_of_nat 11))
                  then remove_spaces r else String c (remove_spaces r)
  end.

(** Forgiving base64 decoding, as [atob] does it. *)
Definition base64_decode (input : string) : Outcome string :=
  let s := remove_spaces input in
  let s := if (String.length s mod 4 =? 0)%nat then
             if ends_with "==" s then drop_last_chars 2 s
             else if ends_with "=" s then drop_last_chars 1 s else s
           else s in
  if (String.length s mod 4 =? 1)%nat
  then Throw (RaisedError "InvalidCharacterError" "The string to be decoded is not correctly encoded.")
  else match sextets_of s with
       | Some l => Return (bytes_of_sextets l)
       | None => Throw (RaisedError "InvalidCharacterError" "The string to be decoded is not correctly encoded.")
       end.

Definition sextet_char (n : N) : ascii :=
  match String.get (N.to_nat (n mod 64)) base64_alphabet with
  | Some c => c
  | None => "="%char
  end.

Fixpoint base64_encode (l : list N) : string :=
  match l with
  | a :: b :: c :: r =>
      let n := (a * 65536 + b * 256 + c)%N in
      String (sextet_char (n / 262144)) (String (sextet_char (n / 4096))
        (String (sextet_char (n / 64)) (String (sextet_char n) (base64_encode r))))
  | [a; b] =>
      let n := (a * 1024 + b * 4)%N in
      String (sextet_char (n / 4096)) (String (sextet_char (n / 64))
        (String (sextet_char n) "="))
  | [a] =>
      String (sextet_char (a / 4)) (String (sextet_char (a * 16)) "==")
  | [] => EmptyString
  end.

Definition sample_readAsDataURL (f : File) : Outcome string :=
  Return ("data:" +:+ or_else (Some (file_type f)) "application/octet-stream" +:+ ";base64,"
          +:+ base64_encode (map (fun b => N_of_ascii (ascii_of_byte b)) (file_bytes f))).

Definition syntax_error : Thrown := RaisedError "SyntaxError" "Unexpected token".

(** The sample platform reads back only the empty array and writes a
    project as its [id]; its storage takes [quota] characters. *)
Definition sample_stringify (l : list Project) : string :=
  "[" +:+ join "," (map (fun p => "{" +:+ dq +:+ "id" +:+ dq +:+ ":" +:+ dq +:+ id p +:+ dq +:+ "}") l) +:+ "]".

Definition storage_size (m : gmap string string) : nat :=
  map_fold (fun k v n => n + String.length k + String.length v)%nat 0%nat m.

Definition sample_platform (quota : nat) : Platform :=
  {| atob := base64_decode;
     readAsDataURL := sample_readAsDataURL;
     JSON_parse := fun s => if String.eqb s "[]" then Return (JArray []) else Throw syntax_error;
     JSON_stringify := sample_stringify;
     JSON_parse_projects := fun s => if String.eqb s "[]" then Return [] else Throw syntax_error;
     storage_accepts := fun m => (storage_size m <=? quota)%nat;
     undefined_read_message := fun p =>
       "Cannot read properties of undefined (reading '" +:+ p +:+ "')" |}.

(** An API that answers every call with the same responses. *)
Definition answering_api (images : GenerateImagesResponse) (answer : GenerateContentResponse)
    : HostedApi :=
  {| generateImages := fun _ => Return images;
     generateContent := fun _ => Return answer;
     sendMessage := fun _ => Return answer |}.

Definition four_images : GenerateImagesResponse :=
  {| generatedImages := Some [ {| image := {| imageBytes := "iVBORw=="; image_mimeType := "image/png" |} |} ] |}.

Definition chunk_of (u t : option string) : GroundingChunk :=
  {| web := Some {| uri := u; title := t |} |}.

(** A grounded answer: a fenced empty array, and chunks with a repeated
    uri, a chunk without title and a chunk without [web]. *)
Definition grounded_answer : GenerateContentResponse :=
  {| promptFeedback := None;
     candidates := Some [
       {| content := None; finishReason := Some "STOP";
          groundingMetadata := Some {| groundingChunks := Some [
            chunk_of (Some "https://a.example") (Some "A");
            chunk_of (Some "https://b.example") None;
            {| web := None |};
            chunk_of (Some "https://b.example") (Some "B");
            chunk_of (Some "https://a.example") (Some "A again");
            chunk_of (Some "https://c.example") (Some "C") ] |} |} ];
     text := Some "```json
[]
```" |}.

Definition image_part (mime b64 : string) : Part :=
  {| inlineData := Some {| mimeType := Some mime; data := Some b64 |}; part_text := None |}.

Definition candidate_with (ps : list Part) : Candidate :=
  {| content := Some {| parts := Some ps |}; finishReason := Some "STOP";
     groundingMetadata := None |}.

(** An answer that carries its image in the first candidate. *)
Definition blended_answer : GenerateContentResponse :=
  {| promptFeedback := None;
     candidates := Some [candidate_with [image_part "image/png" "iVBORw=="]];
     text := None |}.

(** An answer whose first candidate has no image and whose second has one. *)
Definition image_in_second_candidate : GenerateContentResponse :=
  {| promptFeedback := None;
     candidates := Some [candidate_with []; candidate_with [image_part "image/png" "iVBORw=="]];
     text := None |}.

(** A session on the sample platform: describe, generate, choose, upload a
    photo, blend, and reach the finished design. *)
Definition demo_api : HostedApi := answering_api four_images blended_answer.

Definition a_clock : Clock := mkClock 1700000000000 "2023-11-14T22:13:20.000Z".

Definition design_session : list Event :=
  [ EvStart; EvSetPrompt "a rose"; EvGenerateTattoo;
    EvSettle 0 demo_api initial_state a_clock;
    EvSelectTattoo 0;
    EvTryOnImageLoaded "data:image/png;base64,iVBORw==";
    EvBlendTattoo "data:image/png;base64,iVBORw==";
    EvSettle 0 demo_api initial_state a_clock ].

(** A platform that, besides the empty array, reads back the rendering of
    one known list of projects. *)
Definition recalling_platform (quota : nat) (known : list Project) : Platform :=
  {| atob := base64_decode;
     readAsDataURL := sample_readAsDataURL;
     JSON_parse := fun s => if String.eqb s "[]" then Return (JArray []) else Throw syntax_error;
     JSON_stringify := sample_stringify;
     JSON_parse_projects := fun s =>
       if String.eqb s (sample_stringify known) then Return known
       else if String.eqb s "[]" then Return [] else Throw syntax_error;
     storage_accepts := fun m => (storage_size m <=? quota)%nat;
     undefined_read_message := fun p =>
       "Cannot read properties of undefined (reading '" +:+ p +:+ "')" |}.

(** The project that [handleSaveProject] makes at [a_clock] for an
    unassigned design. *)
Definition saved_rose : Project :=
  {| id := "proj_" +:+ decimal (now a_clock);
     designImage := Some "data:image/png;base64,iVBORw==";
     stencilImage := None;
     artist := artist_named "Unassigned";
     savedAt := iso a_clock;
     conversation := [];
     contract := {| status := Pending; price := EmptyString; appointmentDate := EmptyString |} |}.

(** A file whose type is a lone semicolon: its data URL has no MIME type
    that the parsers accept. *)
Definition odd_type_file : File :=
  {| file_name := "notes"; file_type := ";"; file_bytes := [] |}.

(** An API that is down: every call is rejected with [e]. *)
Definition failing_api (e : Thrown) : HostedApi :=
  {| generateImages := fun _ => Throw e;
     generateContent := fun _ => Throw e;
     sendMessage := fun _ => Throw e |}.

Definition a_png : File :=
  {| file_name := "photo.png"; file_type := "image/png";
     file_bytes := [Byte.x89; Byte.x50; Byte.x4e; Byte.x47] |}.

(* ===================================================================== *)
(** * Properties                                                         *)
(* ===================================================================== *)

(** ** Strings *)

Example split_on_examples :
  split_on ","%char "data:image/png;base64,AAAA" = ["data:image/png;base64"; "AAAA"]
  /\ split_on ","%char EmptyString = [EmptyString]
  /\ split_on ","%char "a,b,c" = ["a"; "b"; "c"]
  /\ split_on ","%char "," = [EmptyString; EmptyString].
Proof. repeat split; reflexivity. Qed.

Example match_mime_examples :
  match_mime "data:image/png;base64" = Some "image/png"
  /\ match_mime "data:text/plain;charset=utf-8;base64" = Some "text/plain"
  /\ match_mime "data:;base64" = Some EmptyString
  /\ match_mime "data" = None
  /\ match_mime "a:b:c;d" = Some "b:c".
Proof. repeat split; reflexivity. Qed.

Example strip_fences_examples :
  strip_fences "```json[]```" = "[]"
  /\ strip_fences "[1]" = "[1]"
  /\ strip_fences "````" = "`"
  /\ strip_fences "```json" = EmptyString
  /\ trim "  a b
 " = "a b"
  /\ decimal 1700000000000 = "1700000000000"
  /\ decimal 0 = "0".
Proof. repeat split; reflexivity. Qed.

Example base64_examples :
  base64_decode "aGVsbG8gd29ybGQ=" = Return "hello world"
  /\ base64_decode "aGVsbG8gd29ybGQ" = Return "hello world"
  /\ base64_encode [104; 101; 108; 108; 111]%N = "aGVsbG8="
  /\ (exists e, base64_decode "a,b" = Throw e).
Proof. repeat split; try reflexivity. eexists. reflexivity. Qed.

Lemma append_cons (c : ascii) (a b : string) : String c a +:+ b = String c (a +:+ b).
Proof. reflexivity. Qed.

Lemma append_nil (b : string) : EmptyString +:+ b = b.
Proof. reflexivity. Qed.

Lemma split_on_no_comma (s : string) :
  has_no_comma s = true -> split_on ","%char s = [s].
Proof.
  induction s as [|c r IH]; simpl; [reflexivity|].
  intros Hc. apply andb_prop in Hc as [Hc Hr].
  apply negb_true_iff in Hc. rewrite Hc, (IH Hr). reflexivity.
Qed.

Lemma split_on_first_comma (a b : string) :
  has_no_comma a = true ->
  split_on ","%char (a +:+ String ","%char b) = a :: split_on ","%char b.
Proof.
  induction a as [|c r IH]; [reflexivity|].
  rewrite append_cons. simpl.
  intros Hc. apply andb_prop in Hc as [Hc Hr].
  apply negb_true_iff in Hc. rewrite Hc, (IH Hr). reflexivity.
Qed.

Lemma has_no_comma_app (a b : string) :
  has_no_comma (a +:+ b) = has_no_comma a && has_no_comma b.
Proof.
  unfold has_no_comma.
  induction a as [|c r IH]; [reflexivity|].
  rewrite append_cons. simpl. rewrite IH. apply andb_assoc.
Qed.

Lemma string_app_assoc (a b c : string) : (a +:+ b) +:+ c = a +:+ (b +:+ c).
Proof.
  induction a as [|x r IH]; [reflexivity|].
  rewrite !append_cons. f_equal. exact IH.
Qed.

Lemma plain_mime_char_facts (c : ascii) :
  plain_mime_char c = true ->
  Ascii.eqb c ","%char = false /\ Ascii.eqb c ";"%char = false
  /\ is_line_terminator c = false /\ is_printable_ascii c = true
  /\ ascii_lowercase c = c.
Proof.
  unfold plain_mime_char, is_line_terminator, ascii_lowercase, is_ascii_uppercase.
  intros Hc.
  apply andb_prop in Hc as [Hc H4]. apply andb_prop in Hc as [Hc H3].
  apply andb_prop in Hc as [H1 H2].
  apply negb_true_iff in H2, H3, H4. rewrite H2.
  repeat split; try assumption.
  destruct (Ascii.eqb_spec c "010"%char) as [->|_]; [vm_compute in H1; discriminate|].
  destruct (Ascii.eqb_spec c "013"%char) as [->|_]; [vm_compute in H1; discriminate|].
  reflexivity.
Qed.

Lemma lazy_until_semicolon_plain (m rest : string) :
  string_forallb plain_mime_char m = true ->
  lazy_until_semicolon (m +:+ String ";"%char rest) = Some m.
Proof.
  induction m as [|c r IH]; [reflexivity|].
  rewrite append_cons. simpl.
  intros Hm. apply andb_prop in Hm as [Hc Hr].
  destruct (plain_mime_char_facts c Hc) as (_ & Hs & Hl & _).
  rewrite Hs, Hl, (IH Hr). reflexivity.
Qed.

Lemma normalize_type_plain (m : string) :
  string_forallb plain_mime_char m = true -> normalize_type m = m.
Proof.
  intros Hm. unfold normalize_type.
  assert (string_forallb is_printable_ascii m = true /\ string_map ascii_lowercase m = m) as [-> ->];
    [|reflexivity].
  induction m as [|c r IH]; simpl; [split; reflexivity|].
  simpl in Hm. apply andb_prop in Hm as [Hc Hr].
  destruct (plain_mime_char_facts c Hc) as (_ & _ & _ & Hp & Hlow).
  destruct (IH Hr) as [-> ->]. rewrite Hp, Hlow. split; reflexivity.
Qed.

(** ** The byte loop of [dataURLtoFile] *)

Lemma charCodeAt_cons (c : ascii) (r : string) (i : nat) :
  charCodeAt (String c r) (S i) = charCodeAt r i.
Proof. reflexivity. Qed.

Lemma list_byte_of_string_lookup (bstr : string) (i : nat) :
  (i < String.length bstr)%nat ->
  list_byte_of_string bstr !! i = Some (charCodeAt bstr i).
Proof.
  revert i. induction bstr as [|c r IH]; simpl; intros i Hi; [lia|].
  destruct i as [|i]; [reflexivity|].
  rewrite charCodeAt_cons. apply IH. lia.
Qed.

Lemma list_byte_of_string_length (bstr : string) :
  length (list_byte_of_string bstr) = String.length bstr.
Proof. induction bstr as [|c r IH]; simpl; [reflexivity|]. now f_equal. Qed.

Lemma fill_u8arr_spec (bstr : string) (n : nat) (u8arr : list Byte.byte) :
  length u8arr = String.length bstr ->
  (n <= String.length bstr)%nat ->
  (forall i, (n <= i < String.length bstr)%nat -> u8arr !! i = Some (charCodeAt bstr i)) ->
  fill_u8arr bstr n u8arr = list_byte_of_string bstr.
Proof.
  revert u8arr. induction n as [|n IH]; simpl; intros u8arr Hlen Hn Hdone.
  - apply list_eq. intros i.
    destruct (decide (i < String.length bstr)%nat) as [Hi|Hi].
    + rewrite Hdone by lia. symmetry. now apply list_byte_of_string_lookup.
    + rewrite !lookup_ge_None_2; [reflexivity| |];
        rewrite ?list_byte_of_string_length; lia.
  - apply IH; [now rewrite length_insert | lia |].
    intros i Hi. destruct (decide (i = n)) as [->|Hne].
    + apply list_lookup_insert_eq. lia.
    + rewrite list_lookup_insert_ne by congruence. apply Hdone. lia.
Qed.

Lemma fill_u8arr_all (bstr : string) :
  fill_u8arr bstr (String.length bstr) (replicate (String.length bstr) Byte.x00)
  = list_byte_of_string bstr.
Proof.
  apply fill_u8arr_spec; [apply length_replicate | lia | intros i Hi; lia].
Qed.

(** ** Data URLs: [dataURLtoFile] and the parsing step of [fileToPart] *)

Lemma plain_mime_no_comma (m : string) :
  string_forallb plain_mime_char m = true -> has_no_comma m = true.
Proof.
  unfold has_no_comma. induction m as [|c r IH]; simpl; [reflexivity|].
  intros Hm. apply andb_prop in Hm as [Hc Hr].
  destruct (plain_mime_char_facts c Hc) as (-> & _). simpl. now apply IH.
Qed.

Lemma data_url_pieces (m d : string) :
  string_forallb plain_mime_char m = true ->
  has_no_comma d = true ->
  split_on ","%char ("data:" +:+ m +:+ ";base64," +:+ d)
  = ["data:" +:+ m +:+ ";base64"; d].
Proof.
  intros Hm Hd.
  replace ("data:" +:+ m +:+ ";base64," +:+ d)
    with (("data:" +:+ m +:+ ";base64") +:+ String ","%char d).
  - rewrite split_on_first_comma, (split_on_no_comma d Hd); [reflexivity|].
    rewrite !has_no_comma_app, (plain_mime_no_comma m Hm). reflexivity.
  - rewrite !string_app_assoc. reflexivity.
Qed.

Lemma match_mime_data_url (m : string) :
  string_forallb plain_mime_char m = true ->
  match_mime ("data:" +:+ m +:+ ";base64") = Some m.
Proof.
  intros Hm.
  change ("data:" +:+ m +:+ ";base64")
    with (String "d"%char (String "a"%char (String "t"%char (String "a"%char
           (String ":"%char (m +:+ String ";"%char "base64")))))).
  simpl. now rewrite lazy_until_semicolon_plain.
Qed.

(** C9 (as amended). For a MIME type [m] that is not empty and is made of
    printable ASCII characters other than upper-case letters, the comma and
    the semicolon, and for a payload [d] without a comma that [atob] decodes
    to [bstr], [dataURLtoFile] applied to ['data:' + m + ';base64,' + d]
    returns the File named [filename] of type [m] whose bytes are those of
    [bstr]. And for every string without a comma, [dataURLtoFile] and the
    parsing step of [fileToPart] both throw the Error 'Invalid data URL'. *)
Theorem dataURLtoFile_plain_round_trip `{Platform} :
  (forall m d filename bstr,
     plain_mime m = true ->
     has_no_comma d = true ->
     atob d = Return bstr ->
     dataURLtoFile ("data:" +:+ m +:+ ";base64," +:+ d) filename
     = Return {| file_name := filename; file_type := m;
                 file_bytes := list_byte_of_string bstr |})
  /\ (forall s filename,
        has_no_comma s = true ->
        dataURLtoFile s filename = Throw (NewError "Invalid data URL")
        /\ fileToPart_parse s = Throw (NewError "Invalid data URL")).
Proof.
  split.
  - intros m d filename bstr Hm Hd Hatob.
    unfold plain_mime in Hm. apply andb_prop in Hm as [Hne Hm].
    unfold dataURLtoFile.
    rewrite (data_url_pieces m d Hm Hd). simpl length. simpl nth.
    change (2 <? 2)%nat with false. cbv iota.
    rewrite (match_mime_data_url m Hm).
    destruct m as [|c r]; [discriminate Hne|].
    rewrite Hatob. simpl obind.
    rewrite fill_u8arr_all. unfold new_File.
    now rewrite (normalize_type_plain _ Hm).
  - intros s filename Hs.
    unfold dataURLtoFile, fileToPart_parse.
    rewrite (split_on_no_comma s Hs). split; reflexivity.
Qed.

(** The amended C9 at a PNG data URL and at a string without a comma. *)
Lemma dataURLtoFile_plain_round_trip_witness :
  (plain_mime "image/png" = true
   /\ has_no_comma "iVBORw==" = true
   /\ @atob (sample_platform 0) "iVBORw==" = Return (string_of_list_byte [Byte.x89; Byte.x50; Byte.x4e; Byte.x47])
   /\ @dataURLtoFile (sample_platform 0) ("data:" +:+ "image/png" +:+ ";base64," +:+ "iVBORw==") "a.png"
      = Return {| file_name := "a.png"; file_type := "image/png";
                  file_bytes := list_byte_of_string
                                  (string_of_list_byte [Byte.x89; Byte.x50; Byte.x4e; Byte.x47]) |})
  /\ (has_no_comma "not a data url" = true
      /\ @dataURLtoFile (sample_platform 0) "not a data url" "a.png"
         = Throw (NewError "Invalid data URL")
      /\ @fileToPart_parse "not a data url" = Throw (NewError "Invalid data URL")).
Proof.
  pose proof (@dataURLtoFile_plain_round_trip (sample_platform 0)) as [Hfile Hthrow].
  split.
  - split; [reflexivity|]. split; [reflexivity|]. split; [reflexivity|].
    apply Hfile; reflexivity.
  - split; [reflexivity|]. apply Hthrow. reflexivity.
Defined.

(** C9 (as stated) fails at the MIME type [text/plain;charset=utf-8]: the
    File that comes back has type [text/plain]. *)
Lemma dataURLtoFile_parameterised_mime_counterexample :
  exists f,
    @dataURLtoFile (sample_platform 0)
      ("data:" +:+ "text/plain;charset=utf-8" +:+ ";base64," +:+ "QQ==") "a.txt"
    = Return f
    /\ file_type f = "text/plain"
    /\ file_type f <> "text/plain;charset=utf-8".
Proof.
  eexists. split; [vm_compute; reflexivity|]. split; [reflexivity|discriminate].
Qed.

(** ** Failures of the hosted API *)

(** Four of the seven service functions wrap the call in [try]/[catch]:
    whatever the API call throws comes out as a new Error with a message of
    the function. *)
Lemma api_failure_wrapped_by_four_services `{Platform}
    (api : HostedApi) (e : Thrown) :
  (forall request, generateImages api request = Throw e) ->
  (forall request, generateContent api request = Throw e) ->
  (forall request, sendMessage api request = Throw e) ->
  (forall p stylePrompt,
     generateTattooDesign api p stylePrompt
     = Throw (NewError (if instanceof_Error e
                        then "Failed to generate tattoo designs. " +:+ message_of e
                        else "An unknown error occurred while generating tattoo designs.")))
  /\ (forall p,
        searchReferenceImages api p
        = Throw (NewError ("Failed to find reference images. "
                           +:+ (if instanceof_Error e then message_of e else EmptyString))))
  /\ (forall location,
        findArtists api location None
        = Throw (NewError ("Failed to find artists. "
                           +:+ (if instanceof_Error e then message_of e else EmptyString))))
  /\ (forall history a message model,
        generateArtistResponse api history a message model
        = Throw (NewError "Failed to get a response from the artist AI.")).
Proof.
  intros Himages Hcontent Hchat. repeat split; intros.
  - unfold generateTattooDesign. rewrite Himages. simpl.
    destruct (instanceof_Error e); reflexivity.
  - unfold searchReferenceImages. rewrite Himages. reflexivity.
  - unfold findArtists. simpl. rewrite Hcontent. reflexivity.
  - unfold generateArtistResponse. rewrite Hchat. reflexivity.
Qed.

(** C1 (the code at the failing input). [describeImageStyle],
    [blendVirtualTattoo] and [generateTattooStencil] call the hosted API
    outside any [try]: when the call is rejected with [e], each of the three
    is rejected with that same [e], which no handler of the function has
    seen. *)
Theorem api_failure_escapes_three_services `{Platform}
    (api : HostedApi) (image : File) (part : RequestPart) (e : Thrown) :
  fileToPart image = Return part ->
  (forall request, generateContent api request = Throw e) ->
  describeImageStyle api image = Throw e
  /\ blendVirtualTattoo api image = Throw e
  /\ generateTattooStencil api image = Throw e.
Proof.
  intros Hpart Hcontent.
  unfold describeImageStyle, blendVirtualTattoo, generateTattooStencil.
  rewrite Hpart. simpl. rewrite !Hcontent. repeat split; reflexivity.
Qed.

(** C1 at an API that rejects every call with a value that is not even an
    Error: the three functions are rejected with that value. *)
Lemma api_failure_escapes_three_services_witness :
  @fileToPart (sample_platform 0) a_png
  = Return (InlineDataPart "image/png" "iVBORw==")
  /\ (forall request, generateContent (failing_api (NonError "503")) request
                      = Throw (NonError "503"))
  /\ @describeImageStyle (sample_platform 0) (failing_api (NonError "503")) a_png
     = Throw (NonError "503")
  /\ @blendVirtualTattoo (sample_platform 0) (failing_api (NonError "503")) a_png
     = Throw (NonError "503")
  /\ @generateTattooStencil (sample_platform 0) (failing_api (NonError "503")) a_png
     = Throw (NonError "503").
Proof.
  split; [reflexivity|]. split; [reflexivity|].
  apply (@api_failure_escapes_three_services (sample_platform 0)
           (failing_api (NonError "503")) a_png (InlineDataPart "image/png" "iVBORw==")
           (NonError "503")); reflexivity.
Defined.

(** ** The chat request of [generateArtistResponse] *)

(** C8. Whatever the conversation history, [generateArtistResponse] sends
    the same request to the chat API (the model, the system instruction
    built from the artist, an empty chat history and the user message), and
    so, against the same API, gives the same result. *)
Theorem generateArtistResponse_ignores_history `{Platform}
    (h1 h2 : list Message) (a : Artist) (userMessage model : string) :
  generateArtistResponse_request h1 a userMessage model
  = generateArtistResponse_request h2 a userMessage model
  /\ chat_history (generateArtistResponse_request h1 a userMessage model) = []
  /\ forall api : HostedApi,
       generateArtistResponse api h1 a userMessage model
       = generateArtistResponse api h2 a userMessage model.
Proof.
  repeat split.
Qed.

(** ** The sources of [findArtists] *)

Lemma push_unless_seen_unfold (acc : list Web) (current : Web) :
  push_unless_seen acc current
  = match List.find (same_uri current) acc with
    | Some _ => acc
    | None => acc ++ [current]
    end.
Proof. reflexivity. Qed.

Lemma find_same_uri_None (current : Web) (acc : list Web) :
  List.find (same_uri current) acc = None <-> uri current ∉ map uri acc.
Proof.
  induction acc as [|x r IH]; simpl.
  - split; [intros _ Hin; inversion Hin | reflexivity].
  - unfold same_uri at 1. case_bool_decide as Hx.
    + split; [discriminate|]. intros Hnot. exfalso. apply Hnot. rewrite Hx. left.
    + rewrite IH. rewrite not_elem_of_cons. split; [intros ?; split; congruence | tauto].
Qed.

Lemma find_same_uri_skip (s x : Web) (l : list Web) :
  uri x <> uri s ->
  List.find (same_uri s) (x :: l) = List.find (same_uri s) l.
Proof. intros Hne. simpl. unfold same_uri at 1. now case_bool_decide. Qed.

Lemma find_same_uri_hit (s : Web) (l : list Web) :
  List.find (same_uri s) (s :: l) = Some s.
Proof. simpl. unfold same_uri at 1. now case_bool_decide. Qed.

(** The reduce keeps [acc] and appends to it, in order, each element of [l]
    whose uri is neither in [acc] nor earlier in [l]. *)
Lemma fold_push_unless_seen (l acc : list Web) :
  exists kept,
    fold_left push_unless_seen l acc = acc ++ kept
    /\ kept `sublist_of` l
    /\ NoDup (map uri kept)
    /\ (forall s, s ∈ kept -> uri s ∉ map uri acc)
    /\ (forall w, w ∈ l -> uri w ∈ map uri (acc ++ kept))
    /\ (forall s, s ∈ kept -> List.find (same_uri s) l = Some s).
Proof.
  revert acc. induction l as [|w l IH]; intros acc.
  - exists []. rewrite app_nil_r. repeat split; try constructor;
      intros ? Hin; inversion Hin.
  - simpl fold_left. rewrite push_unless_seen_unfold.
    destruct (List.find (same_uri w) acc) as [seen|] eqn:Hfind.
    + assert (uri w ∈ map uri acc) as Hseen.
      { destruct (decide (uri w ∈ map uri acc)) as [?|Hnot]; [assumption|].
        apply find_same_uri_None in Hnot. congruence. }
      destruct (IH acc) as (kept & Heq & Hsub & Hnd & Hfresh & Hcover & Hfirst).
      exists kept. repeat split; try assumption.
      * now apply sublist_cons.
      * intros x [->|Hx]%elem_of_cons; [|now apply Hcover].
        rewrite map_app. apply elem_of_app. now left.
      * intros s Hs. rewrite find_same_uri_skip; [now apply Hfirst|].
        intros Heq'. apply (Hfresh s Hs). now rewrite <- Heq'.
    + apply find_same_uri_None in Hfind.
      destruct (IH (acc ++ [w])) as (kept & Heq & Hsub & Hnd & Hfresh & Hcover & Hfirst).
      exists (w :: kept). rewrite Heq, <- app_assoc. cbn [app].
      assert (forall s, s ∈ kept -> uri s <> uri w) as Hother.
      { intros s Hs Heq'. apply (Hfresh s Hs). rewrite map_app, Heq'.
        apply elem_of_app. right. simpl. left. }
      repeat split.
      * now apply sublist_skip.
      * constructor; [|assumption].
        intros Hin. apply list_elem_of_fmap in Hin as (s & Hs1 & Hs2).
        now apply (Hother s Hs2).
      * intros s [->|Hs]%elem_of_cons; [assumption|].
        intros Hin. apply (Hfresh s Hs). rewrite map_app. apply elem_of_app. now left.
      * intros x [->|Hx]%elem_of_cons.
        -- rewrite map_app. apply elem_of_app. right. simpl. left.
        -- specialize (Hcover x Hx). now rewrite <- app_assoc in Hcover.
      * intros s [->|Hs]%elem_of_cons; [apply find_same_uri_hit|].
        rewrite find_same_uri_skip; [now apply Hfirst|].
        intros Heq'. now apply (Hother s Hs).
Qed.

Lemma filter_webs_elem (l : list (option Web)) (s : Web) :
  s ∈ filter_webs l -> Some s ∈ l /\ truthy (uri s) = true /\ truthy (title s) = true.
Proof.
  induction l as [|[w|] r IH]; simpl; intros Hin.
  - inversion Hin.
  - destruct (truthy (uri w) && truthy (title w)) eqn:Hkeep.
    + apply elem_of_cons in Hin as [->|Hin].
      * apply andb_prop in Hkeep as [? ?]. split; [left|split; assumption].
      * destruct (IH Hin) as (? & ? & ?). split; [now right|split; assumption].
    + destruct (IH Hin) as (? & ? & ?). split; [now right|split; assumption].
  - destruct (IH Hin) as (? & ? & ?). split; [now right|split; assumption].
Qed.

Lemma filter_webs_sublist (l : list (option Web)) :
  (Some <$> filter_webs l) `sublist_of` l.
Proof.
  induction l as [|[w|] r IH]; simpl.
  - constructor.
  - destruct (truthy (uri w) && truthy (title w)); simpl.
    + now apply sublist_skip.
    + now apply sublist_cons.
  - now apply sublist_cons.
Qed.

(** ** The fences around the model's JSON *)

Lemma string_rev_onto_app (s acc : string) :
  string_rev_onto s acc = string_rev s +:+ acc.
Proof.
  unfold string_rev. revert acc. induction s as [|c r IH]; intros acc; simpl.
  - reflexivity.
  - rewrite (IH (String c acc)), (IH (String c EmptyString)), string_app_assoc.
    reflexivity.
Qed.

Lemma append_nil_r (s : string) : s +:+ EmptyString = s.
Proof.
  induction s as [|c r IH]; [reflexivity|]. rewrite append_cons. now f_equal.
Qed.

Lemma string_rev_app (a b : string) :
  string_rev (a +:+ b) = string_rev b +:+ string_rev a.
Proof.
  induction a as [|c r IH].
  - rewrite append_nil. symmetry. apply append_nil_r.
  - rewrite append_cons. unfold string_rev at 1 3. simpl.
    rewrite !string_rev_onto_app, IH, string_app_assoc. reflexivity.
Qed.

Lemma string_rev_involutive (s : string) : string_rev (string_rev s) = s.
Proof.
  induction s as [|c r IH]; [reflexivity|].
  unfold string_rev at 2. simpl. rewrite string_rev_onto_app, string_rev_app, IH.
  reflexivity.
Qed.

Lemma starts_with_app (p s : string) : starts_with p (p +:+ s) = true.
Proof.
  induction p as [|c r IH]; [reflexivity|].
  rewrite append_cons. simpl. now rewrite Ascii.eqb_refl.
Qed.

Lemma drop_chars_app (p s : string) : drop_chars (String.length p) (p +:+ s) = s.
Proof.
  induction p as [|c r IH]; [reflexivity|]. rewrite append_cons. simpl. exact IH.
Qed.

Lemma strip_fences_fenced (body : string) :
  strip_fences ("```json" +:+ body +:+ "```") = body.
Proof.
  unfold strip_fences.
  rewrite starts_with_app.
  change 7%nat with (String.length "```json"). rewrite drop_chars_app.
  unfold ends_with, drop_last_chars.
  rewrite string_rev_app, starts_with_app.
  change 3%nat with (String.length (string_rev "```")). rewrite drop_chars_app.
  apply string_rev_involutive.
Qed.

(** ** [findArtists] on an answer of the model *)

(** C5. When the model answers with text [t], [findArtists] trims it, strips
    the fences, trims again and applies [JSON.parse]: if that throws, the
    function throws the Error saying that the response could not be
    understood (wrapped by the outer handler); if it returns, the parsed
    value, whatever it is, is the [artists] field of the result. The fences
    are the leading triple backquote with [json] and the trailing triple
    backquote. *)
Theorem findArtists_best_effort_parse `{Platform}
    (api : HostedApi) (location : string) (image : option File)
    (imageParts : list RequestPart) (response : GenerateContentResponse) (t : string) :
  match image with
  | Some f => let* imagePart := fileToPart f in Return [imagePart]
  | None => Return []
  end = Return imageParts ->
  generateContent api
    {| content_model := "gemini-2.5-flash";
       content_parts := imageParts ++ [TextPart (findArtists_textPrompt location image)];
       content_config := GoogleSearchTool |} = Return response ->
  text response = Some t ->
  findArtists api location image
  = match JSON_parse (trim (strip_fences (trim t))) with
    | Return parsed => Return {| artists := parsed; sources := grounding_sources response |}
    | Throw _ =>
        Throw (NewError ("Failed to find artists. " +:+
          "The AI returned a response that could not be understood. Please try a different search."))
    end
  /\ forall body, strip_fences ("```json" +:+ body +:+ "```") = body.
Proof.
  intros Hparts Hanswer Htext. split; [|apply strip_fences_fenced].
  unfold findArtists. rewrite Hparts. simpl obind. rewrite Hanswer. simpl obind.
  unfold text_trim. rewrite Htext. simpl obind.
  destruct (JSON_parse (trim (strip_fences (trim t)))) as [parsed|e]; reflexivity.
Qed.

(** C5 on a fenced empty array that parses, without validation of what it
    holds. *)
Lemma findArtists_best_effort_parse_witness :
  (Return [] : Outcome (list RequestPart)) = Return []
  /\ generateContent (answering_api four_images grounded_answer)
       {| content_model := "gemini-2.5-flash";
          content_parts := [] ++ [TextPart (findArtists_textPrompt "Austin" None)];
          content_config := GoogleSearchTool |} = Return grounded_answer
  /\ text grounded_answer = Some "```json
[]
```"
  /\ @findArtists (sample_platform 0) (answering_api four_images grounded_answer) "Austin" None
     = Return {| artists := JArray []; sources := grounding_sources grounded_answer |}.
Proof.
  split; [reflexivity|]. split; [reflexivity|]. split; [reflexivity|].
  pose proof (@findArtists_best_effort_parse (sample_platform 0)
                (answering_api four_images grounded_answer) "Austin" None []
                grounded_answer _ eq_refl eq_refl eq_refl) as [Hfind _].
  exact Hfind.
Defined.

Lemma findArtists_returns `{Platform}
    (api : HostedApi) (location : string) (image : option File) (res : ArtistSearchResult) :
  findArtists api location image = Return res ->
  exists request response,
    generateContent api request = Return response
    /\ sources res = grounding_sources response.
Proof.
  unfold findArtists. intros Hres.
  destruct (match image with
            | Some f => let* imagePart := fileToPart f in Return [imagePart]
            | None => Return []
            end) as [ps|e]; [|discriminate Hres].
  simpl obind in Hres.
  match type of Hres with
  | context [generateContent api ?req] => destruct (generateContent api req) as [response|e] eqn:Hanswer
  end; [|discriminate Hres].
  eexists; exists response. split; [exact Hanswer|].
  simpl obind in Hres.
  destruct (text_trim response) as [t|e]; [|discriminate Hres].
  simpl obind in Hres.
  destruct (JSON_parse (trim (strip_fences t))) as [parsed|e]; [|discriminate Hres].
  simpl in Hres. injection Hres as <-. reflexivity.
Qed.

(** C10. When [findArtists] returns, every source of the result is the
    [web] object of a grounding chunk of the answer and has a uri and a
    title; no two sources have the same uri; the sources come in the order
    of the chunks; and each source is the first of the chunks' web objects
    (among those with a uri and a title) that has its uri, none of whose
    uris is missing from the sources. *)
Theorem findArtists_sources_first_occurrences `{Platform}
    (api : HostedApi) (location : string) (image : option File) (res : ArtistSearchResult) :
  findArtists api location image = Return res ->
  exists request response,
    generateContent api request = Return response
    /\ let chunks :=
         default [] ((first_candidate response ≫= groundingMetadata) ≫= groundingChunks) in
       (forall s, s ∈ sources res ->
          truthy (uri s) = true /\ truthy (title s) = true
          /\ exists chunk, chunk ∈ chunks /\ web chunk = Some s)
       /\ NoDup (map uri (sources res))
       /\ (Some <$> sources res) `sublist_of` (web <$> chunks)
       /\ (forall s, s ∈ sources res ->
             List.find (same_uri s) (filter_webs (map web chunks)) = Some s)
       /\ (forall w, w ∈ filter_webs (map web chunks) -> uri w ∈ map uri (sources res)).
Proof.
  intros Hres.
  destruct (findArtists_returns api location image res Hres)
    as (request & response & Hanswer & Hsources).
  exists request, response. split; [exact Hanswer|].
  intros chunks. rewrite Hsources. unfold grounding_sources. fold chunks.
  destruct (fold_push_unless_seen (filter_webs (map web chunks)) [])
    as (kept & -> & Hsub & Hnd & _ & Hcover & Hfirst).
  simpl app. split; [|split; [|split; [|split]]].
  - intros s Hs. pose proof (elem_of_sublist _ _ _ Hs Hsub) as Hin.
    apply filter_webs_elem in Hin as (Hin & Huri & Htitle).
    split; [exact Huri|]. split; [exact Htitle|].
    apply list_elem_of_fmap in Hin as (chunk & Hweb & Hchunk).
    exists chunk. split; [assumption|now symmetry].
  - exact Hnd.
  - transitivity (Some <$> filter_webs (map web chunks)).
    + now apply fmap_sublist.
    + apply filter_webs_sublist.
  - exact Hfirst.
  - exact Hcover.
Qed.

(** C10 on the grounded answer: of six chunks, three sources remain. *)
Lemma findArtists_sources_first_occurrences_witness :
  @findArtists (sample_platform 0) (answering_api four_images grounded_answer) "Austin" None
  = Return {| artists := JArray [];
              sources := [ {| uri := Some "https://a.example"; title := Some "A" |};
                           {| uri := Some "https://b.example"; title := Some "B" |};
                           {| uri := Some "https://c.example"; title := Some "C" |} ] |}
  /\ NoDup [Some "https://a.example"; Some "https://b.example"; Some "https://c.example"].
Proof.
  split; [reflexivity|].
  destruct (@findArtists_sources_first_occurrences (sample_platform 0)
              (answering_api four_images grounded_answer) "Austin" None _ eq_refl)
    as (request & response & Hanswer & Hall).
  injection Hanswer as <-.
  destruct Hall as (_ & Hnd & _). exact Hnd.
Defined.

(** ** [handleImageEditApiResponse] *)

Lemma find_first_inlineData (before after : list Part) (p : Part) :
  Forall (fun q => inlineData q = None) before ->
  is_Some (inlineData p) ->
  List.find has_inlineData (before ++ p :: after) = Some p.
Proof.
  intros Hbefore [img Himg].
  induction Hbefore as [|q before Hq _ IH]; simpl.
  - unfold has_inlineData. now rewrite Himg.
  - unfold has_inlineData at 1. now rewrite Hq.
Qed.

Lemma find_inlineData_None (ps : list Part) :
  List.find has_inlineData ps = None <-> Forall (fun q => inlineData q = None) ps.
Proof.
  induction ps as [|q ps IH]; simpl.
  - split; [constructor|reflexivity].
  - unfold has_inlineData at 1. destruct (inlineData q) as [img|] eqn:Hq.
    + split; [discriminate|]. intros Hall. inversion Hall; congruence.
    + rewrite IH. split; [now constructor|]. intros Hall. now inversion Hall.
Qed.

Lemma find_inlineData_Some (ps : list Part) (p : Part) :
  List.find has_inlineData ps = Some p -> p ∈ ps /\ is_Some (inlineData p).
Proof.
  intros Hfind. apply find_some in Hfind as [Hin Hp].
  split; [now apply list_elem_of_In|].
  unfold has_inlineData in Hp. destruct (inlineData p); [eauto|discriminate].
Qed.

Lemma image_part_lookup (response : GenerateContentResponse) :
  ((first_candidate response ≫= content) ≫= parts) ≫= List.find has_inlineData
  = List.find has_inlineData (first_candidate_parts response).
Proof.
  unfold first_candidate_parts.
  destruct ((first_candidate response ≫= content) ≫= parts); reflexivity.
Qed.

(** C6 (as amended). A blocked response makes [handleImageEditApiResponse]
    throw the Error that gives the block reason. An unblocked response whose
    first candidate has a part with [inlineData] makes it return the data URI
    built from the first such part. An unblocked response whose first
    candidate has no such part makes it throw an Error, which names the finish
    reason when the first candidate has one other than STOP and otherwise
    relays the text feedback. So it returns a string if and only if the
    response is unblocked and its first candidate contains an image part. *)
Theorem handleImageEditApiResponse_first_candidate
    (response : GenerateContentResponse) (context : string) :
  (blocked response = true ->
     handleImageEditApiResponse response context
     = Throw (NewError ("Request was blocked. Reason: "
                        +:+ interp (promptFeedback response ≫= blockReason) +:+ ". "
                        +:+ or_else (promptFeedback response ≫= blockReasonMessage) EmptyString)))
  /\ (forall before p after img,
        blocked response = false ->
        first_candidate_parts response = before ++ p :: after ->
        Forall (fun q => inlineData q = None) before ->
        inlineData p = Some img ->
        handleImageEditApiResponse response context
        = Return ("data:" +:+ interp (mimeType img) +:+ ";base64," +:+ interp (data img)))
  /\ (blocked response = false ->
      Forall (fun q => inlineData q = None) (first_candidate_parts response) ->
      handleImageEditApiResponse response context
      = Throw (NewError (no_image_message response context)))
  /\ ((exists s, handleImageEditApiResponse response context = Return s)
      <-> blocked response = false
          /\ exists p, p ∈ first_candidate_parts response /\ is_Some (inlineData p)).
Proof.
  unfold handleImageEditApiResponse, blocked. rewrite image_part_lookup.
  repeat split.
  - intros ->. reflexivity.
  - intros before p after img -> -> Hbefore Himg.
    rewrite find_first_inlineData by eauto. simpl. now rewrite Himg.
  - intros -> Hnone. apply find_inlineData_None in Hnone. rewrite Hnone.
    simpl. unfold no_image_message.
    destruct (truthy (first_candidate response ≫= finishReason)
              && negb (String.eqb (interp (first_candidate response ≫= finishReason)) "STOP"));
      reflexivity.
  - destruct H as [s Hs].
    destruct (truthy (promptFeedback response ≫= blockReason)); [discriminate|reflexivity].
  - destruct H as [s Hs].
    destruct (truthy (promptFeedback response ≫= blockReason)); [discriminate|].
    destruct (List.find has_inlineData (first_candidate_parts response)) as [p|] eqn:Hfind.
    + exists p. now apply find_inlineData_Some.
    + simpl in Hs.
      destruct (truthy (first_candidate response ≫= finishReason)
                && negb (String.eqb (interp (first_candidate response ≫= finishReason)) "STOP"));
        discriminate.
  - intros [-> (p & Hin & Hp)].
    destruct (List.find has_inlineData (first_candidate_parts response)) as [q|] eqn:Hfind.
    + apply find_inlineData_Some in Hfind as [_ [img Himg]].
      simpl. rewrite Himg. eauto.
    + apply find_inlineData_None in Hfind. rewrite Forall_forall in Hfind.
      destruct Hp as [img Himg]. rewrite (Hfind p Hin) in Himg. discriminate.
Qed.

(** The amended C6 on an answer whose first candidate carries a PNG. *)
Lemma handleImageEditApiResponse_first_candidate_witness :
  blocked blended_answer = false
  /\ first_candidate_parts blended_answer = [] ++ image_part "image/png" "iVBORw==" :: []
  /\ handleImageEditApiResponse blended_answer "virtual tattoo blending"
     = Return "data:image/png;base64,iVBORw==".
Proof.
  split; [reflexivity|]. split; [reflexivity|].
  destruct (handleImageEditApiResponse_first_candidate blended_answer "virtual tattoo blending")
    as (_ & Himage & _).
  apply (Himage [] (image_part "image/png" "iVBORw==") []
           {| mimeType := Some "image/png"; data := Some "iVBORw==" |});
    [reflexivity | reflexivity | constructor | reflexivity].
Defined.

(** C6 (as stated) fails on an unblocked answer whose image is in its second
    candidate: the function throws. *)
Lemma handleImageEditApiResponse_second_candidate_counterexample :
  blocked image_in_second_candidate = false
  /\ contains_image_part image_in_second_candidate
  /\ handleImageEditApiResponse image_in_second_candidate "virtual tattoo blending"
     = Throw (NewError ("The AI model did not return an image for the virtual tattoo blending. "
                        +:+ "No additional feedback was provided.")).
Proof.
  split; [reflexivity|]. split; [|reflexivity].
  exists (candidate_with [image_part "image/png" "iVBORw=="]), (image_part "image/png" "iVBORw==").
  split; [|split].
  - simpl. right. left.
  - simpl. left.
  - simpl. eauto.
Qed.

(** ** The projects of the component and of the local storage *)

Lemma projects_with_projects (v : list Project) (s : AppState) :
  projects (with_projects v s) = v.
Proof. destruct s; reflexivity. Qed.

Lemma projects_with_viewingProject (v : option Project) (s : AppState) :
  projects (with_viewingProject v s) = projects s.
Proof. destruct s; reflexivity. Qed.

Lemma projects_with_bookingArtist (v : option Artist) (s : AppState) :
  projects (with_bookingArtist v s) = projects s.
Proof. destruct s; reflexivity. Qed.

(** The project built by [handleSaveProject]. *)
Lemma handleSaveProject_world `{Platform}
    (r : AppState) (c : Clock) (a : Artist) (design : option string) (w : World) :
  let newProject :=
    {| id := "proj_" +:+ decimal (now c); designImage := design; stencilImage := None;
       artist := a; savedAt := iso c; conversation := [];
       contract := {| status := Pending; price := EmptyString; appointmentDate := EmptyString |} |} in
  let updatedProjects := projects r ++ [newProject] in
  let contents := <[projects_key := JSON_stringify updatedProjects]> (localStorage w) in
  handleSaveProject r c a design w
  = if storage_accepts contents
    then (Return tt, mkWorld (with_projects updatedProjects (ui w)) contents
                             (inflight w) (mutation_error w))
    else (Throw (RaisedError "QuotaExceededError" "The quota has been exceeded."),
          mkWorld (with_projects updatedProjects (ui w)) (localStorage w)
                  (inflight w) (mutation_error w)).
Proof.
  intros newProject updatedProjects contents.
  unfold handleSaveProject, mbind, Handler_bind, setState, localStorage_setItem. simpl.
  fold newProject. fold updatedProjects. fold contents.
  destruct (storage_accepts contents); reflexivity.
Qed.

(** C3. [handleSaveProject(artist, design)], run on a render whose projects
    are [projects r], leaves the component with those projects followed by
    exactly one new record: its design is [design], its artist [a], its
    conversation empty and its contract pending with no price and no date;
    the number of projects, shown by the badge of the header, grows by one. *)
Theorem handleSaveProject_appends_one `{Platform}
    (r : AppState) (c : Clock) (a : Artist) (design : string) (w : World) :
  exists newProject,
    projects (ui (snd (handleSaveProject r c a (Some design) w)))
    = projects r ++ [newProject]
    /\ designImage newProject = Some design
    /\ artist newProject = a
    /\ conversation newProject = []
    /\ contract newProject
       = {| status := Pending; price := EmptyString; appointmentDate := EmptyString |}
    /\ length (projects (ui (snd (handleSaveProject r c a (Some design) w))))
       = S (length (projects r)).
Proof.
  eexists. rewrite handleSaveProject_world.
  destruct (storage_accepts _); simpl; rewrite projects_with_projects;
    (split; [reflexivity|]); repeat split; rewrite length_app; simpl; lia.
Qed.

(** ** The ids of the projects *)

Lemma id_merge_project (p : Project) (updates : PartialProject) :
  upd_id updates = None -> id (merge_project p updates) = id p.
Proof. intros Hid. unfold merge_project. simpl. now rewrite Hid. Qed.

(** [updateProject], called with an update that does not set [id] (as its
    callers do), and the deletion keep the ids distinct. *)
Lemma updateProject_keeps_ids (l : list Project) (projectId : string) (updates : PartialProject) :
  upd_id updates = None ->
  map id (map (fun p => if String.eqb (id p) projectId then merge_project p updates else p) l)
  = map id l.
Proof.
  intros Hid. rewrite map_map. apply map_ext. intros p.
  destruct (String.eqb (id p) projectId); [now apply id_merge_project|reflexivity].
Qed.

Lemma deletion_keeps_ids_distinct (l : list Project) (projectId : string) :
  NoDup (map id l) ->
  NoDup (map id (List.filter (fun p => negb (String.eqb (id p) projectId)) l)).
Proof.
  intros Hnd. apply (sublist_NoDup _ (map id l) Hnd), fmap_sublist.
  induction l as [|p l IH]; simpl; [constructor|].
  apply NoDup_cons in Hnd as [_ Hnd].
  destruct (negb (String.eqb (id p) projectId));
    [apply sublist_skip | apply sublist_cons]; now apply IH.
Qed.

Lemma decimal_inj (n m : N) : decimal n = decimal m -> n = m.
Proof.
  unfold decimal. intros Heq.
  assert (forall k, N.to_uint k <> Decimal.Nil) as Hnonnil.
  { intros [|q]; simpl; [discriminate|apply DecimalPos.Unsigned.to_uint_nonnil]. }
  apply DecimalN.Unsigned.to_uint_inj.
  pose proof (NilZero.usu _ (Hnonnil n)) as Hn.
  pose proof (NilZero.usu _ (Hnonnil m)) as Hm.
  rewrite Heq in Hn. congruence.
Qed.

(** A save keeps the ids distinct when no project has the id of the new
    one, as when the clock has moved on since every earlier save. *)
Lemma save_with_fresh_id_keeps_ids_distinct (l : list Project) (newProject : Project) :
  NoDup (map id l) ->
  (forall p, p ∈ l -> id p <> id newProject) ->
  NoDup (map id (l ++ [newProject])).
Proof.
  intros Hnd Hfresh. rewrite map_app. apply NoDup_app. split; [exact Hnd|]. split.
  - intros x Hx Hin. apply list_elem_of_singleton in Hin as ->.
    apply list_elem_of_fmap in Hx as (p & Hp & Hin). now apply (Hfresh p Hin).
  - apply NoDup_singleton.
Qed.

Lemma save_ids_differ_with_the_clock (n m : N) :
  n <> m -> "proj_" +:+ decimal n <> "proj_" +:+ decimal m.
Proof.
  intros Hne Heq. apply Hne, decimal_inj.
  change ("proj_" +:+ decimal n) with
    (String "p"%char (String "r"%char (String "o"%char (String "j"%char (String "_"%char (decimal n)))))) in Heq.
  change ("proj_" +:+ decimal m) with
    (String "p"%char (String "r"%char (String "o"%char (String "j"%char (String "_"%char (decimal m)))))) in Heq.
  congruence.
Qed.

(** C4 (the code at the failing input). Two saves whose handlers read the
    same value of [Date.now()] append two projects with the same id: the ids
    of the projects are then not pairwise distinct. *)
Theorem saves_in_one_millisecond_share_id `{Platform}
    (c : Clock) (a1 a2 : Artist) (d1 d2 : option string) (w : World) :
  let w1 := snd (handleSaveProject (ui w) c a1 d1 w) in
  let w2 := snd (handleSaveProject (ui w1) c a2 d2 w1) in
  (exists p1 p2,
     projects (ui w2) = projects (ui w) ++ [p1; p2]
     /\ id p1 = "proj_" +:+ decimal (now c)
     /\ id p2 = "proj_" +:+ decimal (now c))
  /\ ~ NoDup (map id (projects (ui w2))).
Proof.
  intros w1 w2.
  assert (exists p1 p2,
            projects (ui w2) = projects (ui w) ++ [p1; p2]
            /\ id p1 = "proj_" +:+ decimal (now c)
            /\ id p2 = "proj_" +:+ decimal (now c)) as Hboth.
  { subst w1 w2. rewrite !handleSaveProject_world.
    do 2 eexists.
    repeat (destruct (storage_accepts _); simpl);
      rewrite ?projects_with_projects, <- app_assoc;
      (split; [reflexivity|split; reflexivity]). }
  split; [exact Hboth|].
  destruct Hboth as (p1 & p2 & -> & Hid1 & Hid2). intros Hnd.
  rewrite map_app in Hnd. apply NoDup_app in Hnd as (_ & _ & Hnd). simpl in Hnd.
  apply NoDup_cons in Hnd as [Hnot _]. apply Hnot. rewrite Hid1, Hid2. left.
Qed.

(** The failing input of C4 is reachable: a session that ends on the
    finished design, followed by two clicks on the save button within one
    millisecond. *)
Example two_saves_in_one_millisecond :
  (w ← @run (sample_platform 5000) (@initial_world (sample_platform 5000) ∅)
         (design_session ++ [EvSaveDesign a_clock; EvSaveDesign a_clock]);
   Some (appStep (ui w), map id (projects (ui w))))
  = Some (DONE, ["proj_1700000000000"; "proj_1700000000000"]).
Proof. vm_compute. reflexivity. Qed.

(** ** What the handlers keep *)

Section Preserves.
Context (R : relation World) `{!PreOrder R}.

Lemma preserves_ret {A} (a : A) : preserves R (mret a : Handler A).
Proof. intros w. reflexivity. Qed.

Lemma preserves_lift {A} (o : Outcome A) : preserves R (lift o).
Proof. intros w. reflexivity. Qed.

Lemma preserves_bind {A B} (m : Handler A) (k : A -> Handler B) :
  preserves R m -> (forall a, preserves R (k a)) -> preserves R (m ≫= k).
Proof.
  intros Hm Hk w. unfold mbind, Handler_bind.
  specialize (Hm w). destruct (m w) as [[a|e] w1]; simpl in *.
  - transitivity w1; [exact Hm | apply Hk].
  - exact Hm.
Qed.

Lemma preserves_hcatch {A} (body : Handler A) (handler : Thrown -> Handler A) :
  preserves R body -> (forall e, preserves R (handler e)) -> preserves R (hcatch body handler).
Proof.
  intros Hbody Hhandler w. unfold hcatch.
  specialize (Hbody w). destruct (body w) as [[a|e] w1]; simpl in *.
  - exact Hbody.
  - transitivity w1; [exact Hbody | apply Hhandler].
Qed.
End Preserves.

#[export] Instance same_other_keys_preorder : PreOrder same_other_keys.
Proof.
  split.
  - intros w. reflexivity.
  - intros w1 w2 w3 H12 H23. unfold same_other_keys in *. congruence.
Qed.

#[export] Instance same_wizard_preorder : PreOrder same_wizard.
Proof.
  split.
  - intros w. repeat split; auto.
  - intros w1 w2 w3 (Ha & Hb & Hc & Hd) (Ha' & Hb' & Hc' & Hd').
    repeat split; try congruence. auto.
Qed.

(** One step of a proof that a handler keeps [R]: through the binds, the
    handlers of [catch] and the case distinctions. *)
Ltac preserves_structure :=
  first
    [ apply preserves_ret; solve [typeclasses eauto]
    | apply preserves_lift; solve [typeclasses eauto]
    | apply preserves_bind; [typeclasses eauto | | intros ?]
    | apply preserves_hcatch; [typeclasses eauto | | intros ?]
    | match goal with
      | |- preserves _ (match ?x with _ => _ end) => destruct x
      end ].

Section StorageFrame.
Context `{Platform}.

Lemma setState_other_keys (f : AppState -> AppState) :
  preserves same_other_keys (setState f).
Proof. intros w. reflexivity. Qed.

Lemma mutate_other_keys (m : Mutation) : preserves same_other_keys (mutate m).
Proof. intros w. reflexivity. Qed.

Lemma getItem_other_keys (key : string) :
  preserves same_other_keys (localStorage_getItem key).
Proof. intros w. reflexivity. Qed.

Lemma setItem_other_keys (value : string) :
  preserves same_other_keys (localStorage_setItem projects_key value).
Proof.
  intros w. unfold same_other_keys, localStorage_setItem.
  destruct (storage_accepts _); simpl; [apply delete_insert_eq | reflexivity].
Qed.
End StorageFrame.

Ltac other_keys :=
  repeat first
    [ apply setState_other_keys | apply mutate_other_keys
    | apply getItem_other_keys | apply setItem_other_keys
    | preserves_structure ].

Section StorageFrameOfHandlers.
Context `{Platform}.

Lemma updateProject_other_keys r projectId updates :
  preserves same_other_keys (updateProject r projectId updates).
Proof. unfold updateProject. other_keys. Qed.

Lemma handleSaveProject_other_keys r c a design :
  preserves same_other_keys (handleSaveProject r c a design).
Proof. unfold handleSaveProject. other_keys. Qed.

Lemma loadProjects_other_keys : preserves same_other_keys loadProjects.
Proof. unfold loadProjects. other_keys. Qed.

Lemma handleFindArtists_other_keys r fromStartScreen :
  preserves same_other_keys (handleFindArtists r fromStartScreen).
Proof. unfold handleFindArtists. other_keys. Qed.

Lemma settle_other_keys api r c m : preserves same_other_keys (settle api r c m).
Proof.
  destruct m; unfold settle; other_keys; apply updateProject_other_keys.
Qed.

Lemma settled_other_keys i api r c : preserves same_other_keys (settled i api r c).
Proof.
  intros w. unfold settled.
  destruct (inflight w !! i) as [m|]; [|reflexivity].
  pose proof (settle_other_keys api r c m (with_inflight (delete i (inflight w)) w)) as Hm.
  destruct (settle api r c m _) as [[u|e] w']; exact Hm.
Qed.

Lemma dispatch_other_keys r e : preserves same_other_keys (dispatch r e).
Proof.
  destruct e; unfold dispatch;
    try apply handleSaveProject_other_keys;
    try apply settled_other_keys;
    try (intros w; apply (loadProjects_other_keys (mkWorld initial_state (localStorage w) [] None)));
    unfold handleReset, handleGenerateTattoo, handleSearchReference,
      handleSelectReferenceImage, handleSelectTattoo, handleTryOnImageLoaded,
      handleBlendTattoo, sendConsultationRequest, generateStencilClicked,
      deleteProjectClicked, messageEntered;
    other_keys;
    first [ apply handleFindArtists_other_keys | apply handleSaveProject_other_keys
          | apply updateProject_other_keys ].
Qed.
End StorageFrameOfHandlers.

(** ** The local storage after a change of the projects *)

Lemma updateProject_world `{Platform}
    (r : AppState) (projectId : string) (updates : PartialProject) (w : World) :
  let updatedProjects :=
    map (fun p => if String.eqb (id p) projectId then merge_project p updates else p)
        (projects r) in
  let contents := <[projects_key := JSON_stringify updatedProjects]> (localStorage w) in
  fst (updateProject r projectId updates w) = Return tt
  /\ projects (ui (snd (updateProject r projectId updates w))) = updatedProjects
  /\ localStorage (snd (updateProject r projectId updates w))
     = if storage_accepts contents then contents else localStorage w.
Proof.
  intros updatedProjects contents.
  unfold updateProject, mbind, Handler_bind, hcatch, setState, localStorage_setItem. simpl.
  fold updatedProjects. fold contents.
  destruct (storage_accepts contents); simpl;
    rewrite projects_with_viewingProject, projects_with_projects; repeat split.
Qed.

Lemma deleteProjectClicked_world `{Platform} (r : AppState) (vp : Project) (w : World) :
  viewingProject r = Some vp ->
  let updatedProjects :=
    List.filter (fun p => negb (String.eqb (id p) (id vp))) (projects r) in
  let contents := <[projects_key := JSON_stringify updatedProjects]> (localStorage w) in
  projects (ui (snd (deleteProjectClicked r true w))) = updatedProjects
  /\ localStorage (snd (deleteProjectClicked r true w))
     = if storage_accepts contents then contents else localStorage w.
Proof.
  intros Hvp updatedProjects contents.
  unfold deleteProjectClicked. rewrite Hvp.
  unfold mbind, Handler_bind, setState, localStorage_setItem. simpl.
  fold updatedProjects. fold contents.
  destruct (storage_accepts contents); simpl;
    rewrite ?projects_with_viewingProject, projects_with_projects; repeat split.
Qed.

(** C2 (as amended). After [handleSaveProject], [updateProject] and the
    deletion of a project, the entry [inkgenius_projects] of the local
    storage is [JSON.stringify] of the projects now in memory whenever the
    storage accepts the write; when it refuses (the quota), the projects in
    memory are updated all the same and the storage stays as it was. No
    event of the program changes any other key of the local storage. *)
Theorem projects_entry_follows_memory `{Platform} (r : AppState) (w : World) :
  (forall c a design,
     persisted_or_rejected w (snd (handleSaveProject r c a design w)))
  /\ (forall projectId updates,
        projects (ui (snd (updateProject r projectId updates w)))
        = map (fun p => if String.eqb (id p) projectId then merge_project p updates else p)
              (projects r)
        /\ persisted_or_rejected w (snd (updateProject r projectId updates w)))
  /\ (forall vp,
        viewingProject r = Some vp ->
        projects (ui (snd (deleteProjectClicked r true w)))
        = List.filter (fun p => negb (String.eqb (id p) (id vp))) (projects r)
        /\ persisted_or_rejected w (snd (deleteProjectClicked r true w)))
  /\ (forall e, same_other_keys w (snd (dispatch r e w)))
  /\ (forall w',
        persisted_or_rejected w w' ->
        storage_accepts (<[projects_key := JSON_stringify (projects (ui w'))]> (localStorage w)) = true ->
        localStorage w' !! projects_key = Some (JSON_stringify (projects (ui w')))).
Proof.
  unfold persisted_or_rejected. split; [|split; [|split; [|split]]].
  - intros c a design. rewrite handleSaveProject_world.
    destruct (storage_accepts _) eqn:Haccepts; simpl;
      rewrite projects_with_projects, Haccepts; reflexivity.
  - intros projectId updates.
    destruct (updateProject_world r projectId updates w) as (_ & -> & ->).
    split; reflexivity.
  - intros vp Hvp.
    destruct (deleteProjectClicked_world r vp w Hvp) as (-> & ->). split; reflexivity.
  - intros e. apply dispatch_other_keys.
  - intros w' -> ->. apply lookup_insert_eq.
Qed.

(** The amended C2 on a storage that takes the write, with another key
    already in it. *)
Lemma projects_entry_follows_memory_witness :
  let w := mkWorld initial_state {[ "theme" := "dark" ]} [] None in
  let w' := snd (@handleSaveProject (sample_platform 5000) initial_state a_clock
                   (artist_named "Unassigned") (Some "data:image/png;base64,iVBORw==") w) in
  localStorage w' !! projects_key = Some (@JSON_stringify (sample_platform 5000) (projects (ui w')))
  /\ localStorage w' !! "theme" = Some "dark".
Proof.
  intros w w'.
  destruct (@projects_entry_follows_memory (sample_platform 5000) initial_state w)
    as (Hsave & _ & _ & _ & Hentry).
  split; [|vm_compute; reflexivity].
  apply Hentry; [apply Hsave | vm_compute; reflexivity].
Defined.

(** C2 (as stated) fails when the storage refuses the write: [updateProject]
    returns, the stencil is in the project in memory, and the storage has no
    entry for the projects. *)
Lemma updateProject_quota_counterexample :
  let p := {| id := "proj_1"; designImage := Some "data:image/png;base64,iVBORw==";
              stencilImage := None; artist := artist_named "Unassigned";
              savedAt := "2023-11-14T22:13:20.000Z"; conversation := [];
              contract := {| status := Pending; price := ""; appointmentDate := "" |} |} in
  let r := with_projects [p] initial_state in
  let w := mkWorld r ∅ [] None in
  let w' := snd (@updateProject (sample_platform 8) r "proj_1"
                   (stencil_update "data:image/png;base64,AAAA") w) in
  fst (@updateProject (sample_platform 8) r "proj_1"
         (stencil_update "data:image/png;base64,AAAA") w) = Return tt
  /\ map stencilImage (projects (ui w')) = [Some "data:image/png;base64,AAAA"]
  /\ localStorage w' !! projects_key = None
  /\ localStorage w' !! projects_key
     <> Some (@JSON_stringify (sample_platform 8) (projects (ui w'))).
Proof.
  intros p r w w'.
  split; [vm_compute; reflexivity|].
  split; [vm_compute; reflexivity|].
  assert (localStorage w' !! projects_key = None) as Hnone by (vm_compute; reflexivity).
  split; [exact Hnone|]. rewrite Hnone. discriminate.
Qed.

(** ** What the handlers do to the step and to the two images *)

Section WizardFrame.
Context `{Platform}.

Lemma setState_quiet (f : AppState -> AppState) :
  quiet f -> preserves same_wizard (setState f).
Proof.
  intros Hf w. destruct (Hf (ui w)) as (Ha & Hb & Hc).
  unfold same_wizard, setState. simpl. auto.
Qed.

Lemma mutate_no_blend (m : Mutation) :
  is_blend m = false -> preserves same_wizard (mutate m).
Proof.
  intros Hm w. unfold same_wizard, mutate. simpl. repeat split; try reflexivity.
  intros m' [Hin|Hin]%elem_of_app Hblend; [assumption|].
  apply list_elem_of_singleton in Hin as ->. congruence.
Qed.

Lemma getItem_wizard (key : string) : preserves same_wizard (localStorage_getItem key).
Proof. intros w. reflexivity. Qed.

Lemma setItem_wizard (key value : string) :
  preserves same_wizard (localStorage_setItem key value).
Proof.
  intros w. unfold localStorage_setItem.
  destruct (storage_accepts _); simpl; repeat split; auto.
Qed.

Lemma quiet_setters :
  (forall v, quiet (with_prompt v)) /\ (forall v, quiet (with_generatedTattoos v))
  /\ (forall v, quiet (with_tryOnImage v)) /\ (forall v, quiet (with_st_artists v))
  /\ (forall v, quiet (with_artistSearchSources v)) /\ (forall v, quiet (with_bookingArtist v))
  /\ (forall v, quiet (with_projects v)) /\ (forall v, quiet (with_viewingProject v))
  /\ (forall v, quiet (with_referenceImages v)) /\ (forall v, quiet (with_selectedReferenceImage v))
  /\ (forall v, quiet (with_styleDescription v)) /\ (forall v, quiet (with_locationSearch v))
  /\ (forall v, quiet (with_searchedForArtists v))
  /\ (forall g, quiet (fun s => with_viewingProject (g s) s)).
Proof. repeat split; destruct s; reflexivity. Qed.
End WizardFrame.

Ltac quiet_setter :=
  apply setState_quiet;
  first [ apply quiet_setters
        | apply (proj2 quiet_setters)
        | apply (proj2 (proj2 quiet_setters))
        | apply (proj2 (proj2 (proj2 quiet_setters)))
        | apply (proj2 (proj2 (proj2 (proj2 quiet_setters))))
        | apply (proj2 (proj2 (proj2 (proj2 (proj2 quiet_setters)))))
        | apply (proj2 (proj2 (proj2 (proj2 (proj2 (proj2 quiet_setters))))))
        | apply (proj2 (proj2 (proj2 (proj2 (proj2 (proj2 (proj2 quiet_setters)))))))
        | apply (proj2 (proj2 (proj2 (proj2 (proj2 (proj2 (proj2 (proj2 quiet_setters))))))))
        | apply (proj2 (proj2 (proj2 (proj2 (proj2 (proj2 (proj2 (proj2 (proj2 quiet_setters)))))))))
        | apply (proj2 (proj2 (proj2 (proj2 (proj2 (proj2 (proj2 (proj2 (proj2 (proj2 quiet_setters))))))))))
        | apply (proj2 (proj2 (proj2 (proj2 (proj2 (proj2 (proj2 (proj2 (proj2 (proj2 (proj2 quiet_setters)))))))))))
        | apply (proj2 (proj2 (proj2 (proj2 (proj2 (proj2 (proj2 (proj2 (proj2 (proj2 (proj2 (proj2 quiet_setters))))))))))))
        | apply (proj2 (proj2 (proj2 (proj2 (proj2 (proj2 (proj2 (proj2 (proj2 (proj2 (proj2 (proj2 (proj2 quiet_setters))))))))))))) ].

Ltac wizard_frame :=
  repeat first
    [ quiet_setter
    | apply mutate_no_blend; reflexivity
    | apply getItem_wizard | apply setItem_wizard
    | preserves_structure ].

Section WizardFrameOfHandlers.
Context `{Platform}.

Lemma updateProject_wizard r projectId updates :
  preserves same_wizard (updateProject r projectId updates).
Proof. unfold updateProject. wizard_frame. Qed.





End WizardFrameOfHandlers.

(** ** Every event is one of the moves *)



Lemma same_wizard_blends (w w' : World) : same_wizard w w' -> blends_within w w'.
Proof. intros (_ & _ & _ & Hin). exact Hin. Qed.


Section Moves.
Context `{Platform}.



End Moves.

(** ** The flow of the steps *)

Section Flow.
Context `{Platform}.






End Flow.

Section FlowTheorem.
Context `{Platform}.



End FlowTheorem.


(* ===================================================================== *)
(** * Further properties                                                 *)
(* ===================================================================== *)

(** ** More on data URLs *)

Lemma parsable_char_facts (c : ascii) :
  parsable_char c = true ->
  Ascii.eqb c ","%char = false /\ Ascii.eqb c ";"%char = false /\ is_line_terminator c = false.
Proof.
  unfold parsable_char. intros Hc.
  apply andb_prop in Hc as [Hc H3]. apply andb_prop in Hc as [H1 H2].
  apply negb_true_iff in H1, H2, H3. auto.
Qed.

Lemma parsable_no_comma (m : string) :
  string_forallb parsable_char m = true -> has_no_comma m = true.
Proof.
  unfold has_no_comma. induction m as [|c r IH]; simpl; [reflexivity|].
  intros Hm. apply andb_prop in Hm as [Hc Hr].
  destruct (parsable_char_facts c Hc) as (-> & _). simpl. now apply IH.
Qed.

Lemma lazy_until_semicolon_parsable (m rest : string) :
  string_forallb parsable_char m = true ->
  lazy_until_semicolon (m +:+ String ";"%char rest) = Some m.
Proof.
  induction m as [|c r IH]; [reflexivity|].
  rewrite append_cons. simpl.
  intros Hm. apply andb_prop in Hm as [Hc Hr].
  destruct (parsable_char_facts c Hc) as (_ & -> & ->). now rewrite (IH Hr).
Qed.

Lemma data_url_pieces_parsable (m d : string) :
  string_forallb parsable_char m = true ->
  has_no_comma d = true ->
  split_on ","%char ("data:" +:+ m +:+ ";base64," +:+ d)
  = ["data:" +:+ m +:+ ";base64"; d].
Proof.
  intros Hm Hd.
  replace ("data:" +:+ m +:+ ";base64," +:+ d)
    with (("data:" +:+ m +:+ ";base64") +:+ String ","%char d).
  - rewrite split_on_first_comma, (split_on_no_comma d Hd); [reflexivity|].
    rewrite !has_no_comma_app, (parsable_no_comma m Hm). reflexivity.
  - rewrite !string_app_assoc. reflexivity.
Qed.

Lemma match_mime_data_url_parsable (m : string) :
  string_forallb parsable_char m = true ->
  match_mime ("data:" +:+ m +:+ ";base64") = Some m.
Proof.
  intros Hm.
  change ("data:" +:+ m +:+ ";base64")
    with (String "d"%char (String "a"%char (String "t"%char (String "a"%char
           (String ":"%char (m +:+ String ";"%char "base64")))))).
  simpl. now rewrite lazy_until_semicolon_parsable.
Qed.

(** X1. The data URI that the service layer builds from a MIME type and a
    base64 payload is parsed back by [fileToPart] into that MIME type and
    that payload, as long as the MIME type is not empty and has no comma,
    semicolon or line break and the payload has no comma. *)
Theorem fileToPart_parse_data_uri (m d : string) :
  parsable_mime m = true ->
  has_no_comma d = true ->
  fileToPart_parse ("data:" +:+ m +:+ ";base64," +:+ d) = Return (InlineDataPart m d).
Proof.
  unfold parsable_mime. intros Hm Hd. apply andb_prop in Hm as [Hne Hm].
  unfold fileToPart_parse.
  rewrite (data_url_pieces_parsable m d Hm Hd). simpl length. simpl nth.
  change (2 <? 2)%nat with false. cbv iota.
  rewrite (match_mime_data_url_parsable m Hm).
  destruct m as [|c r]; [discriminate Hne|reflexivity].
Qed.

Lemma fileToPart_parse_data_uri_witness :
  parsable_mime "image/SVG+xml" = true
  /\ has_no_comma "PHN2Zz4=" = true
  /\ fileToPart_parse ("data:" +:+ "image/SVG+xml" +:+ ";base64," +:+ "PHN2Zz4=")
     = Return (InlineDataPart "image/SVG+xml" "PHN2Zz4=").
Proof.
  split; [reflexivity|]. split; [reflexivity|].
  apply fileToPart_parse_data_uri; reflexivity.
Defined.

Lemma match_mime_without_colon (s : string) :
  lacks ":"%char s = true -> match_mime s = None.
Proof.
  unfold lacks. induction s as [|c r IH]; simpl; [reflexivity|].
  intros Hs. apply andb_prop in Hs as [Hc Hr].
  apply negb_true_iff in Hc. rewrite Hc. now apply IH.
Qed.

Lemma lazy_until_semicolon_without (s : string) :
  lacks ";"%char s = true -> lazy_until_semicolon s = None.
Proof.
  unfold lacks. induction s as [|c r IH]; simpl; [reflexivity|].
  intros Hs. apply andb_prop in Hs as [Hc Hr].
  apply negb_true_iff in Hc. rewrite Hc, (IH Hr).
  destruct (is_line_terminator c); reflexivity.
Qed.

Lemma match_mime_without_semicolon (s : string) :
  lacks ";"%char s = true -> match_mime s = None.
Proof.
  induction s as [|c r IH]; simpl; [reflexivity|].
  intros Hs. assert (lacks ";"%char r = true) as Hr.
  { unfold lacks in *. simpl in Hs. now apply andb_prop in Hs as [_ Hr]. }
  rewrite (lazy_until_semicolon_without r Hr), (IH Hr).
  destruct (Ascii.eqb c ":"%char); reflexivity.
Qed.

(** X2. When the text in front of the first comma has no colon, or no
    semicolon, [dataURLtoFile] and the parsing step of [fileToPart] throw
    the Error 'Could not parse MIME type from data URL', whatever follows
    the comma; [atob] is not reached. *)
Theorem data_url_without_mime_is_refused `{Platform} (head rest filename : string) :
  has_no_comma head = true ->
  lacks ":"%char head = true \/ lacks ";"%char head = true ->
  dataURLtoFile (head +:+ String ","%char rest) filename
  = Throw (NewError "Could not parse MIME type from data URL")
  /\ fileToPart_parse (head +:+ String ","%char rest)
     = Throw (NewError "Could not parse MIME type from data URL").
Proof.
  intros Hhead Hcase.
  assert (match_mime head = None) as Hnone.
  { destruct Hcase; [now apply match_mime_without_colon
                    | now apply match_mime_without_semicolon]. }
  assert (exists more, split_on ","%char (head +:+ String ","%char rest) = head :: more
                       /\ (length (head :: more) <? 2)%nat = false) as (more & Hsplit & Hlen).
  { rewrite (split_on_first_comma head rest Hhead). eexists. split; [reflexivity|].
    destruct rest as [|c r]; simpl; [reflexivity|].
    destruct (Ascii.eqb c ","%char); [reflexivity|].
    destruct (split_on ","%char r); reflexivity. }
  unfold dataURLtoFile, fileToPart_parse. rewrite Hsplit, Hlen. simpl nth.
  rewrite Hnone. split; reflexivity.
Qed.

Lemma data_url_without_mime_is_refused_witness :
  has_no_comma "image/png;base64" = true
  /\ (lacks ":"%char "image/png;base64" = true \/ lacks ";"%char "image/png;base64" = true)
  /\ @dataURLtoFile (sample_platform 0) ("image/png;base64" +:+ String ","%char "iVBORw==") "a.png"
     = Throw (NewError "Could not parse MIME type from data URL")
  /\ fileToPart_parse ("image/png;base64" +:+ String ","%char "iVBORw==")
     = Throw (NewError "Could not parse MIME type from data URL").
Proof.
  split; [reflexivity|]. split; [left; reflexivity|].
  apply (@data_url_without_mime_is_refused (sample_platform 0)); [reflexivity|left; reflexivity].
Defined.

(** X3. When the payload of a well-formed data URL is not valid base64,
    [dataURLtoFile] lets the exception of [atob] through unchanged. *)
Theorem dataURLtoFile_undecodable_payload `{Platform} (m d filename : string) (e : Thrown) :
  parsable_mime m = true ->
  has_no_comma d = true ->
  atob d = Throw e ->
  dataURLtoFile ("data:" +:+ m +:+ ";base64," +:+ d) filename = Throw e.
Proof.
  unfold parsable_mime. intros Hm Hd Hatob. apply andb_prop in Hm as [Hne Hm].
  unfold dataURLtoFile.
  rewrite (data_url_pieces_parsable m d Hm Hd). simpl length. simpl nth.
  change (2 <? 2)%nat with false. cbv iota.
  rewrite (match_mime_data_url_parsable m Hm).
  destruct m as [|c r]; [discriminate Hne|]. now rewrite Hatob.
Qed.

Lemma dataURLtoFile_undecodable_payload_witness :
  parsable_mime "image/png" = true
  /\ has_no_comma "undefined" = true
  /\ @atob (sample_platform 0) "undefined"
     = Throw (RaisedError "InvalidCharacterError" "The string to be decoded is not correctly encoded.")
  /\ @dataURLtoFile (sample_platform 0) ("data:" +:+ "image/png" +:+ ";base64," +:+ "undefined") "a.png"
     = Throw (RaisedError "InvalidCharacterError" "The string to be decoded is not correctly encoded.").
Proof.
  split; [reflexivity|]. split; [reflexivity|]. split; [reflexivity|].
  apply (@dataURLtoFile_undecodable_payload (sample_platform 0)); reflexivity.
Defined.

(** ** The image generators *)

Lemma image_data_uri_starts_with_data (img : GeneratedImage) :
  starts_with "data:" (image_data_uri img) = true.
Proof. unfold image_data_uri. apply starts_with_app. Qed.

Lemma all_data_uris (imgs : list GeneratedImage) :
  Forall (fun u => starts_with "data:" u = true) (map image_data_uri imgs).
Proof.
  induction imgs as [|img imgs IH]; [constructor|].
  change (map image_data_uri (img :: imgs))
    with (image_data_uri img :: map image_data_uri imgs).
  constructor; [apply image_data_uri_starts_with_data | exact IH].
Qed.

(** X4. When [generateTattooDesign] returns, the list is not empty and holds
    one data URI per image of the API's answer, in order, each starting with
    [data:]; the call asked the image model for four PNG images of aspect
    ratio 1:1 with the full prompt. *)
Theorem generateTattooDesign_returns_the_images
    (api : HostedApi) (p : string) (stylePrompt : option string) (l : list string) :
  generateTattooDesign api p stylePrompt = Return l ->
  exists response imgs,
    generateImages api
      {| images_model := "imagen-4.0-generate-001";
         images_prompt := tattooDesign_fullPrompt p stylePrompt;
         numberOfImages := 4; outputMimeType := "image/png"; aspectRatio := "1:1" |}
    = Return response
    /\ generatedImages response = Some imgs
    /\ l = map image_data_uri imgs
    /\ l <> []
    /\ length l = length imgs
    /\ Forall (fun u => starts_with "data:" u = true) l.
Proof.
  unfold generateTattooDesign. intros Hl.
  destruct (generateImages api _) as [response|e] eqn:Hcall; simpl in Hl.
  - destruct (generatedImages response) as [[|img imgs]|] eqn:Himgs; simpl in Hl;
      try discriminate Hl.
    injection Hl as <-. exists response, (img :: imgs).
    repeat split; try assumption; try discriminate.
    + simpl. now rewrite length_map.
    + apply (all_data_uris (img :: imgs)).
  - destruct (instanceof_Error e); discriminate Hl.
Qed.

Lemma generateTattooDesign_returns_the_images_witness :
  generateTattooDesign demo_api "a rose" (Some "")
  = Return ["data:image/png;base64,iVBORw=="]
  /\ length ["data:image/png;base64,iVBORw=="] = 1%nat.
Proof.
  split; [reflexivity|].
  destruct (generateTattooDesign_returns_the_images demo_api "a rose"
              (Some "") _ eq_refl) as (response & imgs & Hcall & Himgs & _ & _ & Hlen & _).
  injection Hcall as <-. injection Himgs as <-. exact Hlen.
Defined.

(** X5. When the image model answers without images (no list, or an empty
    one), [generateTattooDesign] and [searchReferenceImages] throw the Error
    of the function that says so; neither ever returns an empty list. *)
Theorem image_functions_refuse_an_empty_answer
    (api : HostedApi) (response : GenerateImagesResponse) :
  (forall request, generateImages api request = Return response) ->
  generatedImages response = None \/ generatedImages response = Some [] ->
  (forall p stylePrompt,
     generateTattooDesign api p stylePrompt
     = Throw (NewError "Failed to generate tattoo designs. The AI did not return any images."))
  /\ (forall p,
        searchReferenceImages api p
        = Throw (NewError "Failed to find reference images. The AI did not return any reference images.")).
Proof.
  intros Hcall Hempty. split; intros;
    unfold generateTattooDesign, searchReferenceImages; rewrite Hcall; simpl;
    destruct Hempty as [-> | ->]; reflexivity.
Qed.

Lemma image_functions_refuse_an_empty_answer_witness :
  generateTattooDesign
    (answering_api {| generatedImages := Some [] |} blended_answer) "a rose" None
  = Throw (NewError "Failed to generate tattoo designs. The AI did not return any images.")
  /\ searchReferenceImages
       (answering_api {| generatedImages := Some [] |} blended_answer) "roses"
     = Throw (NewError "Failed to find reference images. The AI did not return any reference images.").
Proof.
  destruct (image_functions_refuse_an_empty_answer
              (answering_api {| generatedImages := Some [] |} blended_answer)
              {| generatedImages := Some [] |} (fun _ => eq_refl) (or_intror eq_refl))
    as [Hdesign Hsearch].
  split; [apply Hdesign | apply Hsearch].
Defined.

(** ** Failures, wrapped or not *)



(** X7. The conversion of the image into a part (its read and the parsing
    of its data URL) comes before any [try]: when it fails, the four
    functions that take an image are rejected with that very error, not
    wrapped, whatever the API would have answered. *)
Theorem unreadable_image_escapes `{Platform} (api : HostedApi) (image : File) (e : Thrown) :
  fileToPart image = Throw e ->
  describeImageStyle api image = Throw e
  /\ blendVirtualTattoo api image = Throw e
  /\ generateTattooStencil api image = Throw e
  /\ forall location, findArtists api location (Some image) = Throw e.
Proof.
  intros Hread.
  unfold describeImageStyle, blendVirtualTattoo, generateTattooStencil, findArtists.
  rewrite Hread. repeat split.
Qed.

Lemma unreadable_image_escapes_witness :
  @fileToPart (sample_platform 0) odd_type_file
  = Throw (NewError "Could not parse MIME type from data URL")
  /\ @findArtists (sample_platform 0) demo_api "Austin" (Some odd_type_file)
     = Throw (NewError "Could not parse MIME type from data URL")
  /\ @blendVirtualTattoo (sample_platform 0) demo_api odd_type_file
     = Throw (NewError "Could not parse MIME type from data URL").
Proof.
  destruct (@unreadable_image_escapes (sample_platform 0) demo_api odd_type_file
              (NewError "Could not parse MIME type from data URL") eq_refl)
    as (_ & Hblend & _ & Hfind).
  split; [reflexivity|]. split; [apply Hfind | exact Hblend].
Defined.

(** ** White space and fences *)

Lemma trim_start_starts_clean (s : string) : starts_clean (trim_start s) = true.
Proof.
  induction s as [|c r IH]; simpl; [reflexivity|].
  destruct (is_js_space c) eqn:Hc; [exact IH|]. simpl. now rewrite Hc.
Qed.

Lemma trim_start_clean (s : string) : starts_clean s = true -> trim_start s = s.
Proof.
  destruct s as [|c r]; simpl; [reflexivity|].
  intros Hc. apply negb_true_iff in Hc. now rewrite Hc.
Qed.

Lemma trim_start_suffix (s : string) : exists ws, s = ws +:+ trim_start s.
Proof.
  induction s as [|c r [ws IH]]; simpl.
  - now exists EmptyString.
  - destruct (is_js_space c).
    + exists (String c ws). rewrite append_cons. now f_equal.
    + now exists EmptyString.
Qed.

Lemma trim_end_ends_clean (s : string) : ends_clean (trim_end s) = true.
Proof.
  unfold ends_clean, trim_end. rewrite string_rev_involutive.
  apply trim_start_starts_clean.
Qed.

Lemma trim_end_clean (s : string) : ends_clean s = true -> trim_end s = s.
Proof.
  unfold ends_clean, trim_end. intros Hs.
  rewrite (trim_start_clean _ Hs). apply string_rev_involutive.
Qed.

Lemma starts_clean_app (a b : string) :
  starts_clean (a +:+ b) = true -> starts_clean a = true.
Proof. destruct a as [|c r]; [reflexivity|]. rewrite append_cons. auto. Qed.

Lemma trim_end_keeps_start (s : string) :
  starts_clean s = true -> starts_clean (trim_end s) = true.
Proof.
  intros Hs. unfold trim_end.
  destruct (trim_start_suffix (string_rev s)) as [ws Hws].
  assert (s = string_rev (trim_start (string_rev s)) +:+ string_rev ws) as Hdecomp.
  { rewrite <- string_rev_app, <- Hws. symmetry. apply string_rev_involutive. }
  rewrite Hdecomp in Hs. now apply starts_clean_app in Hs.
Qed.

Lemma trim_is_clean (s : string) :
  starts_clean (trim s) = true /\ ends_clean (trim s) = true.
Proof.
  unfold trim. split; [|apply trim_end_ends_clean].
  apply trim_end_keeps_start, trim_start_starts_clean.
Qed.

Lemma trim_clean (s : string) :
  starts_clean s = true -> ends_clean s = true -> trim s = s.
Proof.
  intros Hstart Hend. unfold trim. rewrite (trim_start_clean s Hstart).
  now apply trim_end_clean.
Qed.

Lemma trim_idempotent (s : string) : trim (trim s) = trim s.
Proof. destruct (trim_is_clean s). now apply trim_clean. Qed.

(** X8. [findArtists] hands [JSON.parse] the same string for a fenced
    answer as for its body alone, whatever white space surrounds the body
    inside the fences, provided the trimmed body is not itself fenced. *)
Theorem fences_make_no_difference (body : string) :
  starts_with "```json" (trim body) = false ->
  ends_with "```" (trim body) = false ->
  trim (strip_fences (trim ("```json" +:+ body +:+ "```"))) = trim body
  /\ trim (strip_fences (trim body)) = trim body.
Proof.
  intros Hstart Hend. split.
  - rewrite (trim_clean ("```json" +:+ body +:+ "```")).
    + now rewrite strip_fences_fenced.
    + reflexivity.
    + unfold ends_clean.
      rewrite <- string_app_assoc, string_rev_app. reflexivity.
  - unfold strip_fences. rewrite Hstart, Hend. apply trim_idempotent.
Qed.

Lemma fences_make_no_difference_witness :
  starts_with "```json" (trim "
[]
") = false
  /\ ends_with "```" (trim "
[]
") = false
  /\ trim (strip_fences (trim ("```json" +:+ "
[]
" +:+ "```"))) = "[]"
  /\ trim (strip_fences (trim "
[]
")) = "[]".
Proof.
  split; [reflexivity|]. split; [reflexivity|].
  apply (fences_make_no_difference "
[]
"); reflexivity.
Defined.

(** ** Start over *)

(** X9. [handleReset] puts the step, the prompt, the generated and selected
    designs, the photo, the final image and the artists back to their first
    values and never throws; it keeps the projects, the open dialogs, the
    reference images and the style description, the storage and the calls in
    flight; doing it twice is doing it once. So the next designs generated
    after a reset still use the style description chosen before it. *)
Theorem handleReset_keeps_gallery_and_style (w : World) :
  fst (handleReset w) = Return tt
  /\ (appStep (ui (snd (handleReset w))) = START
      /\ prompt (ui (snd (handleReset w))) = EmptyString
      /\ generatedTattoos (ui (snd (handleReset w))) = []
      /\ selectedTattoo (ui (snd (handleReset w))) = None
      /\ tryOnImage (ui (snd (handleReset w))) = None
      /\ finalImage (ui (snd (handleReset w))) = None
      /\ st_artists (ui (snd (handleReset w))) = JArray []
      /\ searchedForArtists (ui (snd (handleReset w))) = false)
  /\ (projects (ui (snd (handleReset w))) = projects (ui w)
      /\ viewingProject (ui (snd (handleReset w))) = viewingProject (ui w)
      /\ bookingArtist (ui (snd (handleReset w))) = bookingArtist (ui w)
      /\ referenceImages (ui (snd (handleReset w))) = referenceImages (ui w)
      /\ selectedReferenceImage (ui (snd (handleReset w))) = selectedReferenceImage (ui w)
      /\ styleDescription (ui (snd (handleReset w))) = styleDescription (ui w)
      /\ artistSearchSources (ui (snd (handleReset w))) = artistSearchSources (ui w)
      /\ locationSearch (ui (snd (handleReset w))) = locationSearch (ui w)
      /\ localStorage (snd (handleReset w)) = localStorage w
      /\ inflight (snd (handleReset w)) = inflight w
      /\ mutation_error (snd (handleReset w)) = mutation_error w)
  /\ snd (handleReset (snd (handleReset w))) = snd (handleReset w)
  /\ (forall p,
        truthy (Some (trim p)) = true ->
        let w1 := snd (setState (with_prompt p) (snd (handleReset w))) in
        inflight (snd (handleGenerateTattoo (ui w1) w1))
        = inflight w ++ [MGenerateTattoo p (Some (styleDescription (ui w)))]).
Proof.
  destruct w as [[] st fl err].
  split; [reflexivity|]. split; [repeat split|]. split; [repeat split|].
  split; [reflexivity|].
  intros p Hp w1. unfold handleGenerateTattoo.
  change (prompt (ui w1)) with p. rewrite Hp. reflexivity.
Qed.

Lemma handleReset_keeps_gallery_and_style_witness :
  let w := mkWorld (with_styleDescription "fine-line illustration"
                      (with_appStep DONE initial_state)) ∅ [] None in
  truthy (Some (trim "a wolf")) = true
  /\ inflight (snd (handleGenerateTattoo
                      (ui (snd (setState (with_prompt "a wolf") (snd (handleReset w)))))
                      (snd (setState (with_prompt "a wolf") (snd (handleReset w))))))
     = [MGenerateTattoo "a wolf" (Some "fine-line illustration")].
Proof.
  intros w. split; [reflexivity|].
  destruct (handleReset_keeps_gallery_and_style w) as (_ & _ & _ & _ & Hnext).
  apply (Hnext "a wolf"). reflexivity.
Defined.

(** ** Updating and deleting projects *)

(** X10. [updateProject] never throws, even when the storage refuses the
    write. The projects it leaves in memory are those of the render it was
    made in, in the same number and order, each one merged with the updates
    exactly when its id is [projectId]; with an id that no project has they
    are those projects unchanged. The project on view is merged with the
    updates whatever its id. Nothing else of the component changes. *)
Theorem updateProject_touches_only_its_project `{Platform}
    (r : AppState) (projectId : string) (updates : PartialProject) (w : World) :
  fst (updateProject r projectId updates w) = Return tt
  /\ length (projects (ui (snd (updateProject r projectId updates w)))) = length (projects r)
  /\ (forall i p,
        projects r !! i = Some p ->
        projects (ui (snd (updateProject r projectId updates w))) !! i
        = Some (if String.eqb (id p) projectId then merge_project p updates else p))
  /\ (Forall (fun p => String.eqb (id p) projectId = false) (projects r) ->
      projects (ui (snd (updateProject r projectId updates w))) = projects r)
  /\ viewingProject (ui (snd (updateProject r projectId updates w)))
     = (fun prev => merge_project prev updates) <$> viewingProject (ui w)
  /\ same_wizard w (snd (updateProject r projectId updates w))
  /\ inflight (snd (updateProject r projectId updates w)) = inflight w.
Proof.
  destruct (updateProject_world r projectId updates w) as (Hret & Hprojects & _).
  split; [exact Hret|]. rewrite Hprojects.
  split; [apply length_map|].
  split; [|split; [|split; [|split]]].
  - intros i p Hi. rewrite list_lookup_fmap, Hi. reflexivity.
  - intros Hnone. clear Hprojects. induction (projects r) as [|p l IH]; [reflexivity|].
    apply Forall_cons in Hnone as [Hp Hl]. simpl. rewrite Hp. f_equal. now apply IH.
  - unfold updateProject, mbind, Handler_bind, hcatch, setState, localStorage_setItem. simpl.
    destruct w as [s st fl err]. destruct s as [? ? ? ? ? ? ? ? ? ? onview ? ? ? ? ?].
    destruct (storage_accepts _); simpl; destruct onview; reflexivity.
  - apply updateProject_wizard.
  - unfold updateProject, mbind, Handler_bind, hcatch, setState, localStorage_setItem. simpl.
    destruct (storage_accepts _); reflexivity.
Qed.

Lemma filter_keeps_all {A} (f : A -> bool) (l : list A) :
  Forall (fun x => f x = true) l -> List.filter f l = l.
Proof.
  induction 1 as [|x l Hx _ IH]; simpl; [reflexivity|]. rewrite Hx. now f_equal.
Qed.

Lemma filter_sublist {A} (f : A -> bool) (l : list A) : List.filter f l `sublist_of` l.
Proof.
  induction l as [|x l IH]; simpl; [constructor|].
  destruct (f x); [now apply sublist_skip | now apply sublist_cons].
Qed.

(** X11. The deletion of the project on view, once confirmed, removes from
    memory every project that has its id and keeps the others in order.
    When the storage takes the write the dialog is closed; when it refuses,
    the handler throws and the dialog stays open on the deleted project.
    Without confirmation nothing happens. *)
Theorem deletion_removes_the_id `{Platform} (r : AppState) (vp : Project) (w : World) :
  viewingProject r = Some vp ->
  (forall p, p ∈ projects (ui (snd (deleteProjectClicked r true w)))
             <-> p ∈ projects r /\ id p <> id vp)
  /\ projects (ui (snd (deleteProjectClicked r true w))) `sublist_of` projects r
  /\ (let contents :=
        <[projects_key := JSON_stringify
                            (List.filter (fun p => negb (String.eqb (id p) (id vp))) (projects r))]>
          (localStorage w) in
      if storage_accepts contents
      then fst (deleteProjectClicked r true w) = Return tt
           /\ viewingProject (ui (snd (deleteProjectClicked r true w))) = None
      else fst (deleteProjectClicked r true w)
           = Throw (RaisedError "QuotaExceededError" "The quota has been exceeded.")
           /\ viewingProject (ui (snd (deleteProjectClicked r true w))) = viewingProject (ui w))
  /\ deleteProjectClicked r false w = (Return tt, w).
Proof.
  intros Hvp.
  destruct (deleteProjectClicked_world r vp w Hvp) as (Hprojects & _).
  rewrite Hprojects. split; [|split; [|split]].
  - intros p. rewrite list_elem_of_In, filter_In, <- list_elem_of_In.
    rewrite negb_true_iff, String.eqb_neq. reflexivity.
  - apply filter_sublist.
  - unfold deleteProjectClicked. rewrite Hvp.
    unfold mbind, Handler_bind, setState, localStorage_setItem. simpl.
    destruct (storage_accepts _); simpl; destruct w as [[] st fl err]; split; reflexivity.
  - unfold deleteProjectClicked. rewrite Hvp. reflexivity.
Qed.

Lemma deletion_removes_the_id_witness :
  let p := {| id := "proj_1"; designImage := Some "data:image/png;base64,iVBORw==";
              stencilImage := None; artist := artist_named "Unassigned";
              savedAt := "2023-11-14T22:13:20.000Z"; conversation := [];
              contract := {| status := Pending; price := ""; appointmentDate := "" |} |} in
  let r := with_viewingProject (Some p) (with_projects [p] initial_state) in
  viewingProject r = Some p
  /\ projects (ui (snd (@deleteProjectClicked (sample_platform 5000) r true
                          (mkWorld r ∅ [] None)))) `sublist_of` [p].
Proof.
  intros p r. split; [reflexivity|].
  destruct (@deletion_removes_the_id (sample_platform 5000) r p (mkWorld r ∅ [] None) eq_refl)
    as (_ & Hsub & _).
  exact Hsub.
Defined.



(** ** The saved projects over a reload *)

(** X13. Loading the saved projects never throws and never writes: the
    storage, the calls in flight and the recorded error stay. With no entry
    under the key, with an empty entry, or with an entry that does not parse,
    the whole state stays as it is; with an entry that parses, only the
    projects change, to what was parsed. *)
Theorem loadProjects_is_forgiving `{Platform} (w : World) :
  fst (loadProjects w) = Return tt
  /\ localStorage (snd (loadProjects w)) = localStorage w
  /\ inflight (snd (loadProjects w)) = inflight w
  /\ mutation_error (snd (loadProjects w)) = mutation_error w
  /\ (localStorage w !! projects_key = None -> snd (loadProjects w) = w)
  /\ (localStorage w !! projects_key = Some EmptyString -> snd (loadProjects w) = w)
  /\ (forall saved e,
        localStorage w !! projects_key = Some saved ->
        JSON_parse_projects saved = Throw e ->
        snd (loadProjects w) = w)
  /\ (forall saved loaded,
        localStorage w !! projects_key = Some saved ->
        truthy (Some saved) = true ->
        JSON_parse_projects saved = Return loaded ->
        ui (snd (loadProjects w)) = with_projects loaded (ui w)).
Proof.
  unfold loadProjects, hcatch, mbind, Handler_bind, localStorage_getItem, lift, setState.
  destruct w as [s st fl err]. cbn [localStorage ui].
  destruct (st !! projects_key) as [saved|] eqn:Hentry.
  - destruct saved as [|ch rest].
    + cbn. repeat split; intros; simplify_eq/=; reflexivity.
    + cbn [truthy interp].
      destruct (JSON_parse_projects (String ch rest)) as [loaded|e] eqn:Hparse; cbn;
        repeat split; intros; simplify_eq/=; try congruence; reflexivity.
  - cbn. repeat split; intros; simplify_eq/=; reflexivity.
Qed.

Lemma reload_reads_the_storage `{Platform} (w : World) (l : list Project) :
  localStorage w !! projects_key = Some (JSON_stringify l) ->
  truthy (Some (JSON_stringify l)) = true ->
  JSON_parse_projects (JSON_stringify l) = Return l ->
  dispatch (ui w) EvReload w
  = (Return tt, mkWorld (with_projects l initial_state) (localStorage w) [] None).
Proof.
  intros Hentry Htruthy Hparse. cbn [dispatch].
  unfold loadProjects, hcatch, mbind, Handler_bind, localStorage_getItem, lift, setState.
  cbn [localStorage]. rewrite Hentry, Htruthy. cbn [interp]. rewrite Hparse. reflexivity.
Qed.

(** X14. A design whose save the storage took survives a reload of the
    page, on a platform whose JSON reader gives back the list the writer was
    given: after the reload the projects are those of the render of the save
    followed by the new project, and the rest of the component is in its
    first state. *)
Theorem saved_design_survives_reload `{Platform}
    (r : AppState) (c : Clock) (a : Artist) (design : option string) (w : World) :
  let newProject :=
    {| id := "proj_" +:+ decimal (now c); designImage := design; stencilImage := None;
       artist := a; savedAt := iso c; conversation := [];
       contract := {| status := Pending; price := EmptyString; appointmentDate := EmptyString |} |} in
  let saved := projects r ++ [newProject] in
  storage_accepts (<[projects_key := JSON_stringify saved]> (localStorage w)) = true ->
  truthy (Some (JSON_stringify saved)) = true ->
  JSON_parse_projects (JSON_stringify saved) = Return saved ->
  let w1 := snd (handleSaveProject r c a design w) in
  ui (snd (dispatch (ui w1) EvReload w1)) = with_projects saved initial_state
  /\ inflight (snd (dispatch (ui w1) EvReload w1)) = []
  /\ mutation_error (snd (dispatch (ui w1) EvReload w1)) = None.
Proof.
  intros newProject saved Haccept Htruthy Hparse w1.
  assert (localStorage w1 !! projects_key = Some (JSON_stringify saved)) as Hentry.
  { subst w1. rewrite handleSaveProject_world. fold newProject. fold saved.
    rewrite Haccept. cbn [snd localStorage]. apply lookup_insert_eq. }
  rewrite (reload_reads_the_storage w1 saved Hentry Htruthy Hparse).
  repeat split.
Qed.

Lemma saved_design_survives_reload_witness :
  let P := recalling_platform 5000 [saved_rose] in
  let w := mkWorld initial_state ∅ [] None in
  let w1 := snd (@handleSaveProject P initial_state a_clock (artist_named "Unassigned")
                   (Some "data:image/png;base64,iVBORw==") w) in
  projects (ui (snd (@dispatch P (ui w1) EvReload w1))) = [saved_rose].
Proof.
  intros P w w1.
  assert (@storage_accepts P (<[projects_key := @JSON_stringify P [saved_rose]]> ∅) = true)
    as Haccept by (vm_compute; reflexivity).
  assert (truthy (Some (@JSON_stringify P [saved_rose])) = true) as Htruthy
    by (vm_compute; reflexivity).
  assert (@JSON_parse_projects P (@JSON_stringify P [saved_rose]) = Return [saved_rose])
    as Hparse by (vm_compute; reflexivity).
  destruct (@saved_design_survives_reload P initial_state a_clock (artist_named "Unassigned")
              (Some "data:image/png;base64,iVBORw==") w Haccept Htruthy Hparse) as (Hui & _).
  fold w1 in Hui. rewrite Hui. reflexivity.
Defined.

(** ** Messages to the artist *)

(** X15. Enter in the message box of a project: a message that is blank
    after trimming does nothing. Any other message is appended, untrimmed and
    as a user message, to the conversation of the project on view as the
    render has it; the projects of the render with that id and the project on
    view get this conversation; and one reply is asked for, with the
    conversation that ends in the new message, the artist of the project
    and the same untrimmed text. The handler never throws. *)
Theorem messageEntered_appends_and_asks `{Platform}
    (r : AppState) (vp : Project) (value : string) (c : Clock) (w : World) :
  viewingProject r = Some vp ->
  let userMessage := {| sender := "user"; msg_text := value; timestamp := iso c |} in
  let newConversation := conversation vp ++ [userMessage] in
  if String.eqb (trim value) EmptyString
  then messageEntered r value c w = (Return tt, w)
  else fst (messageEntered r value c w) = Return tt
       /\ inflight (snd (messageEntered r value c w))
          = inflight w ++ [MArtistResponse newConversation (artist vp) value "gemini-2.5-flash"]
       /\ projects (ui (snd (messageEntered r value c w)))
          = map (fun p => if String.eqb (id p) (id vp)
                          then merge_project p (conversation_update newConversation) else p)
                (projects r)
       /\ viewingProject (ui (snd (messageEntered r value c w)))
          = (fun prev => merge_project prev (conversation_update newConversation))
              <$> viewingProject (ui w).
Proof.
  intros Hvp userMessage newConversation.
  unfold messageEntered. rewrite Hvp.
  destruct (String.eqb (trim value) EmptyString); cbn [negb]; [reflexivity|].
  fold userMessage. fold newConversation.
  unfold updateProject, mbind, Handler_bind, hcatch, setState, localStorage_setItem, mutate.
  destruct w as [s st fl err]. destruct s as [? ? ? ? ? ? ? ? ? ? onview ? ? ? ? ?].
  cbn. destruct (storage_accepts _); cbn; destruct onview; repeat split.
Qed.

Lemma messageEntered_appends_and_asks_witness :
  let r := with_viewingProject (Some saved_rose) (with_projects [saved_rose] initial_state) in
  let w := mkWorld r ∅ [] None in
  viewingProject r = Some saved_rose
  /\ inflight (snd (@messageEntered (sample_platform 5000) r " Is Friday free? " a_clock w))
     = [MArtistResponse
          [{| sender := "user"; msg_text := " Is Friday free? "; timestamp := iso a_clock |}]
          (artist_named "Unassigned") " Is Friday free? " "gemini-2.5-flash"]
  /\ @messageEntered (sample_platform 5000) r "   " a_clock w = (Return tt, w).
Proof.
  intros r w. split; [reflexivity|]. split.
  - pose proof (@messageEntered_appends_and_asks (sample_platform 5000) r saved_rose
                  " Is Friday free? " a_clock w eq_refl) as Hsent.
    apply Hsent.
  - exact (@messageEntered_appends_and_asks (sample_platform 5000) r saved_rose
             "   " a_clock w eq_refl).
Defined.

(** ** The blend button and the search for artists *)

Lemma dataURLtoFile_undecodable `{Platform} (m d filename : string) (e : Thrown) :
  parsable_mime m = true ->
  has_no_comma d = true ->
  atob d = Throw e ->
  dataURLtoFile ("data:" +:+ m +:+ ";base64," +:+ d) filename = Throw e.
Proof.
  unfold parsable_mime. intros Hm Hd Hatob. apply andb_prop in Hm as [Hne Hm].
  unfold dataURLtoFile.
  rewrite (data_url_pieces_parsable m d Hm Hd). simpl length. simpl nth.
  change (2 <? 2)%nat with false. cbv iota.
  rewrite (match_mime_data_url_parsable m Hm).
  destruct m as [|ch rest]; [discriminate Hne|]. now rewrite Hatob.
Qed.

Lemma dataURLtoFile_decoded `{Platform} (m d filename bstr : string) :
  parsable_mime m = true ->
  has_no_comma d = true ->
  atob d = Return bstr ->
  dataURLtoFile ("data:" +:+ m +:+ ";base64," +:+ d) filename
  = Return (new_File (list_byte_of_string bstr) filename m).
Proof.
  unfold parsable_mime. intros Hm Hd Hatob. apply andb_prop in Hm as [Hne Hm].
  unfold dataURLtoFile.
  rewrite (data_url_pieces_parsable m d Hm Hd). simpl length. simpl nth.
  change (2 <? 2)%nat with false. cbv iota.
  rewrite (match_mime_data_url_parsable m Hm).
  destruct m as [|ch rest]; [discriminate Hne|]. rewrite Hatob. cbn [obind].
  now rewrite fill_u8arr_all.
Qed.

(** X16. The blend button, on a canvas whose data URL has a MIME type the
    parser takes whole: when the payload decodes, exactly one blend is put in
    flight, of a file named tattoo_try_on.png that has the decoded bytes and
    the lower-cased MIME type, and the state of the component stays as it is
    (the step changes only when the blend settles); when the payload does not
    decode, the handler throws what the decoder threw and nothing is put in
    flight. *)
Theorem blend_button_sends_the_canvas `{Platform} (m d : string) (w : World) :
  parsable_mime m = true ->
  has_no_comma d = true ->
  match atob d with
  | Return bstr =>
      handleBlendTattoo (Some ("data:" +:+ m +:+ ";base64," +:+ d)) w
      = (Return tt,
         with_inflight
           (inflight w ++ [MBlendTattoo {| file_name := "tattoo_try_on.png";
                                           file_type := normalize_type m;
                                           file_bytes := list_byte_of_string bstr |}]) w)
  | Throw e =>
      handleBlendTattoo (Some ("data:" +:+ m +:+ ";base64," +:+ d)) w = (Throw e, w)
  end.
Proof.
  intros Hm Hd. unfold handleBlendTattoo, mbind, Handler_bind, lift, mutate.
  destruct (atob d) as [bstr|e] eqn:Hatob.
  - now rewrite (dataURLtoFile_decoded m d _ bstr Hm Hd Hatob).
  - now rewrite (dataURLtoFile_undecodable m d _ e Hm Hd Hatob).
Qed.

Lemma blend_button_sends_the_canvas_witness :
  let w := mkWorld (with_appStep TRY_ON initial_state) ∅ [] None in
  parsable_mime "image/PNG" = true
  /\ has_no_comma "iVBORw==" = true
  /\ @handleBlendTattoo (sample_platform 0) (Some "data:image/PNG;base64,iVBORw==") w
     = (Return tt,
        with_inflight [MBlendTattoo {| file_name := "tattoo_try_on.png";
                                       file_type := "image/png";
                                       file_bytes := [Byte.x89; Byte.x50; Byte.x4e; Byte.x47] |}] w)
  /\ @handleBlendTattoo (sample_platform 0) (Some "data:image/png;base64,undefined") w
     = (Throw (RaisedError "InvalidCharacterError"
                 "The string to be decoded is not correctly encoded."), w).
Proof.
  intros w. split; [reflexivity|]. split; [reflexivity|]. split.
  - exact (@blend_button_sends_the_canvas (sample_platform 0) "image/PNG" "iVBORw==" w
             eq_refl eq_refl).
  - exact (@blend_button_sends_the_canvas (sample_platform 0) "image/png" "undefined" w
             eq_refl eq_refl).
Defined.

(** X17. The search for artists from the start screen never throws: it
    clears the final image and the chosen design, marks the search as not yet
    done, puts exactly one search in flight, for the location of the render
    and without an image, and shows the artist step. *)
Theorem find_artists_from_the_start_screen `{Platform} (w : World) :
  fst (dispatch (ui w) EvStartFindArtist w) = Return tt
  /\ appStep (ui (snd (dispatch (ui w) EvStartFindArtist w))) = FIND_ARTIST
  /\ finalImage (ui (snd (dispatch (ui w) EvStartFindArtist w))) = None
  /\ selectedTattoo (ui (snd (dispatch (ui w) EvStartFindArtist w))) = None
  /\ searchedForArtists (ui (snd (dispatch (ui w) EvStartFindArtist w))) = false
  /\ inflight (snd (dispatch (ui w) EvStartFindArtist w))
     = inflight w ++ [MFindArtists (locationSearch (ui w)) None]
  /\ projects (ui (snd (dispatch (ui w) EvStartFindArtist w))) = projects (ui w)
  /\ localStorage (snd (dispatch (ui w) EvStartFindArtist w)) = localStorage w.
Proof.
  destruct w as [s st fl err]. destruct s. repeat split.
Qed.

(** X18. The search for artists from the finished design shows the artist
    step first and then turns the final image into a file named
    final_design.png, ahead of the chosen design: when that works, one search
    with this file is put in flight and the search is marked as not yet done;
    when it throws, the handler throws the same, no search is put in flight
    and the mark stays, so the artist step is shown with no search under
    way. *)
Theorem find_artists_from_the_finished_design `{Platform} (image : string) (w : World) :
  finalImage (ui w) = Some image ->
  truthy (Some image) = true ->
  appStep (ui (snd (dispatch (ui w) EvFindArtistFromDone w))) = FIND_ARTIST
  /\ match dataURLtoFile image "final_design.png" with
     | Return f =>
         fst (dispatch (ui w) EvFindArtistFromDone w) = Return tt
         /\ inflight (snd (dispatch (ui w) EvFindArtistFromDone w))
            = inflight w ++ [MFindArtists (locationSearch (ui w)) (Some f)]
         /\ searchedForArtists (ui (snd (dispatch (ui w) EvFindArtistFromDone w))) = false
     | Throw e =>
         fst (dispatch (ui w) EvFindArtistFromDone w) = Throw e
         /\ inflight (snd (dispatch (ui w) EvFindArtistFromDone w)) = inflight w
         /\ searchedForArtists (ui (snd (dispatch (ui w) EvFindArtistFromDone w)))
            = searchedForArtists (ui w)
     end.
Proof.
  intros Hfinal Htruthy.
  destruct w as [s st fl err]. destruct s. cbn in Hfinal. subst.
  cbn [dispatch]. unfold handleFindArtists, mbind, Handler_bind, mret, Handler_ret, lift,
    setState, mutate.
  cbn [ui finalImage negb andb interp]. rewrite Htruthy.
  destruct (dataURLtoFile image "final_design.png"); repeat split.
Qed.

Lemma find_artists_from_the_finished_design_witness :
  let w := mkWorld (with_finalImage (Some "data:image/png;base64,undefined")
                      (with_appStep DONE initial_state)) ∅ [] None in
  finalImage (ui w) = Some "data:image/png;base64,undefined"
  /\ truthy (Some "data:image/png;base64,undefined") = true
  /\ appStep (ui (snd (@dispatch (sample_platform 0) (ui w) EvFindArtistFromDone w)))
     = FIND_ARTIST
  /\ inflight (snd (@dispatch (sample_platform 0) (ui w) EvFindArtistFromDone w)) = [].
Proof.
  intros w. split; [reflexivity|]. split; [reflexivity|].
  pose proof (@find_artists_from_the_finished_design (sample_platform 0)
                "data:image/png;base64,undefined" w eq_refl eq_refl) as [Hstep Hrest].
  split; [exact Hstep|].
  change (@dataURLtoFile (sample_platform 0) "data:image/png;base64,undefined" "final_design.png")
    with (@Throw File (RaisedError "InvalidCharacterError"
                         "The string to be decoded is not correctly encoded.")) in Hrest.
  apply Hrest.
Defined.

(** ** Calls that fail *)

(** X19. When the call of a mutation in flight is rejected, nothing of the
    state of the component and nothing of the storage changes: the call
    leaves the flight, its error is recorded, and from then on the error
    panel with its reload button is what the page shows. *)
Theorem failed_call_changes_nothing `{Platform}
    (i : nat) (api : HostedApi) (r : AppState) (c : Clock) (m : Mutation) (e : Thrown)
    (w : World) :
  inflight w !! i = Some m ->
  call_fails api m e ->
  settled i api r c w
  = (Return tt, mkWorld (ui w) (localStorage w) (delete i (inflight w)) (Some e))
  /\ enabled (snd (settled i api r c w)) EvReload = true.
Proof.
  intros Hi Hfail.
  assert (settled i api r c w
          = (Return tt, mkWorld (ui w) (localStorage w) (delete i (inflight w)) (Some e)))
    as Hsettled.
  { unfold settled. rewrite Hi.
    destruct w as [s st fl err].
    destruct m; cbn [call_fails] in Hfail;
      unfold settle, mbind, Handler_bind, lift; rewrite Hfail; reflexivity. }
  split; [exact Hsettled|]. rewrite Hsettled. reflexivity.
Qed.

Lemma failed_call_changes_nothing_witness :
  let e := RaisedError "ApiError" "503 Service Unavailable" in
  let w := mkWorld (with_appStep TRY_ON initial_state) ∅ [MBlendTattoo a_png] None in
  inflight w !! 0%nat = Some (MBlendTattoo a_png)
  /\ @call_fails (sample_platform 0) (failing_api e) (MBlendTattoo a_png) e
  /\ @settled (sample_platform 0) 0 (failing_api e) (ui w) a_clock w
     = (Return tt, mkWorld (ui w) ∅ [] (Some e)).
Proof.
  intros e w. split; [reflexivity|].
  assert (@call_fails (sample_platform 0) (failing_api e) (MBlendTattoo a_png) e) as Hfail
    by (vm_compute; reflexivity).
  split; [exact Hfail|].
  apply (@failed_call_changes_nothing (sample_platform 0) 0 (failing_api e) (ui w) a_clock
           (MBlendTattoo a_png) e w eq_refl Hfail).
Defined.

(** ** The list of artists on view *)

Lemma styleMatch_rank_cases (a : Artist) : styleMatch_rank a = 1%Z \/ styleMatch_rank a = 0%Z.
Proof. unfold styleMatch_rank. destruct (styleMatch a) as [[|]|]; auto. Qed.

Lemma insert_sorted_by_rank (x : Artist) (front back : list Artist) :
  Forall (fun a => styleMatch_rank a = 1%Z) front ->
  Forall (fun a => styleMatch_rank a = 0%Z) back ->
  insert_sorted (fun a b => styleMatch_rank b - styleMatch_rank a)%Z x (front ++ back)
  = if (styleMatch_rank x =? 1)%Z then x :: front ++ back else front ++ x :: back.
Proof.
  intros Hfront Hback. induction Hfront as [|y front Hy _ IH].
  - destruct Hback as [|y back Hy _]; cbn [app insert_sorted].
    + now destruct (styleMatch_rank x =? 1)%Z.
    + rewrite Hy. destruct (styleMatch_rank_cases x) as [-> | ->]; reflexivity.
  - cbn [app insert_sorted]. rewrite Hy.
    destruct (styleMatch_rank_cases x) as [Hx | Hx]; rewrite Hx in *; cbn.
    + reflexivity.
    + now rewrite IH.
Qed.

Lemma sort_by_styleMatch (l : list Artist) :
  sort_by (fun a b => styleMatch_rank b - styleMatch_rank a)%Z l
  = List.filter (fun a => (styleMatch_rank a =? 1)%Z) l
    ++ List.filter (fun a => negb (styleMatch_rank a =? 1)%Z) l.
Proof.
  induction l as [|x l IH]; [reflexivity|].
  cbn [sort_by fold_right]. fold (sort_by (fun a b => styleMatch_rank b - styleMatch_rank a)%Z l).
  rewrite IH, insert_sorted_by_rank.
  - cbn [List.filter]. now destruct (styleMatch_rank x =? 1)%Z.
  - apply List.Forall_forall. intros a Ha. apply filter_In in Ha as [_ Ha]. lia.
  - apply List.Forall_forall. intros a Ha. apply filter_In in Ha as [_ Ha].
    destruct (styleMatch_rank_cases a) as [Hr | Hr]; rewrite Hr in *; [discriminate Ha | reflexivity].
Qed.

(** X20. The artists on view. Sorted by style match, they are the shown
    artists that match the style, in the order of the search result,
    followed by the shown artists that do not, in that order too; with any
    other sort order they are the shown artists in the order of the search
    result. Either way an artist is on view exactly when the search returned
    them and the filters let them through; and with no specialty chosen and
    the availability filter on all, every artist is on view. *)
Theorem filteredArtists_puts_style_matches_first
    (artists : list Artist) (artistSpecialtyFilter : list string)
    (artistAvailabilityFilter artistSort : string) :
  filteredArtists artists artistSpecialtyFilter artistAvailabilityFilter artistSort
  = (if String.eqb artistSort "styleMatch"
     then List.filter (artist_shown artistSpecialtyFilter artistAvailabilityFilter)
            (List.filter (fun a => (styleMatch_rank a =? 1)%Z) artists)
          ++ List.filter (artist_shown artistSpecialtyFilter artistAvailabilityFilter)
               (List.filter (fun a => negb (styleMatch_rank a =? 1)%Z) artists)
     else List.filter (artist_shown artistSpecialtyFilter artistAvailabilityFilter) artists)
  /\ (forall a,
        In a (filteredArtists artists artistSpecialtyFilter artistAvailabilityFilter artistSort)
        <-> In a artists
            /\ artist_shown artistSpecialtyFilter artistAvailabilityFilter a = true)
  /\ (forall a, artist_shown [] "all" a = true)
  /\ filteredArtists artists [] "all" "default" = artists.
Proof.
  assert (forall a, artist_shown [] "all" a = true) as Hall by reflexivity.
  unfold filteredArtists. split; [|split; [|split]].
  - destruct (String.eqb artistSort "styleMatch"); [|reflexivity].
    now rewrite sort_by_styleMatch, List.filter_app.
  - intros a. destruct (String.eqb artistSort "styleMatch"); [|apply filter_In].
    rewrite sort_by_styleMatch, filter_In, in_app_iff, !filter_In.
    destruct (styleMatch_rank a =? 1)%Z; cbn; tauto.
  - exact Hall.
  - change (String.eqb "default" "styleMatch") with false. cbv iota.
    apply filter_keeps_all, List.Forall_forall. intros a _. apply Hall.
Qed.

Lemma array_includes_In (arr : list string) (x : string) :
  array_includes arr x = true <-> In x arr.
Proof.
  unfold array_includes. rewrite existsb_exists. split.
  - intros (y & Hy & Heq). apply String.eqb_eq in Heq. now subst.
  - intros Hx. exists x. split; [exact Hx | apply String.eqb_refl].
Qed.

Lemma array_includes_not_In (arr : list string) (x : string) :
  array_includes arr x = false <-> ~ In x arr.
Proof.
  rewrite <- array_includes_In. destruct (array_includes arr x); split; intros; congruence.
Qed.

Lemma NoDup_snoc_fresh (l : list string) (x : string) :
  NoDup l -> ~ In x l -> NoDup (l ++ [x]).
Proof.
  intros Hl Hx. apply NoDup_ListNoDup, List.NoDup_app.
  - now apply NoDup_ListNoDup.
  - apply NoDup_ListNoDup, NoDup_singleton.
  - intros s Hs [<- | []]. contradiction.
Qed.

(** X21. The button of a specialty toggles it in the filter and nothing
    else: afterwards the specialty is chosen exactly when it was not before,
    and every other specialty is chosen exactly when it was. A filter without
    repetitions stays without repetitions, and choosing a specialty and
    taking it back gives the filter it started from. *)
Theorem toggle_specialty_toggles_one (spec : string) (prev : list string) :
  array_includes (toggle_specialty spec prev) spec = negb (array_includes prev spec)
  /\ (forall s, s <> spec ->
        array_includes (toggle_specialty spec prev) s = array_includes prev s)
  /\ (NoDup prev -> NoDup (toggle_specialty spec prev))
  /\ (array_includes prev spec = false ->
      toggle_specialty spec (toggle_specialty spec prev) = prev).
Proof.
  assert (forall s, In s (toggle_specialty spec prev)
                    <-> if array_includes prev spec then In s prev /\ s <> spec
                        else In s prev \/ s = spec) as Hmem.
  { intros s. unfold toggle_specialty. destruct (array_includes prev spec).
    - rewrite filter_In, negb_true_iff, String.eqb_neq. reflexivity.
    - rewrite in_app_iff. cbn. intuition. }
  split; [|split; [|split]].
  - destruct (array_includes prev spec) eqn:Hin; cbn [negb].
    + apply array_includes_not_In. rewrite Hmem. tauto.
    + apply array_includes_In. rewrite Hmem. tauto.
  - intros s Hs. destruct (array_includes prev s) eqn:Hprev.
    + apply array_includes_In. apply array_includes_In in Hprev. rewrite Hmem.
      destruct (array_includes prev spec); tauto.
    + apply array_includes_not_In. apply array_includes_not_In in Hprev. rewrite Hmem.
      destruct (array_includes prev spec); tauto.
  - intros Hnodup. unfold toggle_specialty. destruct (array_includes prev spec) eqn:Hin.
    + apply NoDup_ListNoDup, List.NoDup_filter. now apply NoDup_ListNoDup.
    + apply array_includes_not_In in Hin. now apply NoDup_snoc_fresh.
  - intros Hout. unfold toggle_specialty at 2. rewrite Hout.
    unfold toggle_specialty.
    assert (array_includes (prev ++ [spec]) spec = true) as ->
      by (apply array_includes_In, in_app_iff; right; now left).
    rewrite List.filter_app. cbn. rewrite String.eqb_refl. cbn. rewrite app_nil_r.
    apply filter_keeps_all, List.Forall_forall. intros s Hs.
    apply negb_true_iff, String.eqb_neq. intros ->.
    apply array_includes_not_In in Hout. contradiction.
Qed.

Lemma spread_set_from (arr acc : list string) :
  NoDup acc ->
  NoDup (fold_left (fun acc x => if array_includes acc x then acc else acc ++ [x]) arr acc)
  /\ (forall s,
        In s (fold_left (fun acc x => if array_includes acc x then acc else acc ++ [x]) arr acc)
        <-> In s acc \/ In s arr).
Proof.
  revert acc. induction arr as [|x arr IH]; intros acc Hacc; cbn [fold_left].
  - split; [exact Hacc|]. intros s. cbn. tauto.
  - destruct (array_includes acc x) eqn:Hin.
    + destruct (IH acc Hacc) as [Hnodup Hmem]. split; [exact Hnodup|].
      intros s. rewrite Hmem. apply array_includes_In in Hin. cbn.
      split; [tauto|]. intros [Hs | [<- | Hs]]; tauto.
    + apply array_includes_not_In in Hin.
      assert (NoDup (acc ++ [x])) as Hacc' by now apply NoDup_snoc_fresh.
      destruct (IH (acc ++ [x]) Hacc') as [Hnodup Hmem]. split; [exact Hnodup|].
      intros s. rewrite Hmem, in_app_iff. cbn. tauto.
Qed.

(** X22. The specialties offered as filter buttons after a search are
    without repetitions, and a specialty is among them exactly when some
    artist of the result lists it; an artist without specialties adds
    none. *)
Theorem uniqueSpecialties_are_the_listed_ones (artists : list Artist) :
  NoDup (uniqueSpecialties artists)
  /\ (forall s,
        In s (uniqueSpecialties artists)
        <-> exists a l, In a artists /\ specialties a = Some l /\ In s l).
Proof.
  unfold uniqueSpecialties, spread_set.
  destruct (spread_set_from (flat_map (fun a => default [] (specialties a)) artists) []
              (NoDup_nil_2)) as [Hnodup Hmem].
  split; [exact Hnodup|]. intros s. rewrite Hmem, in_flat_map. cbn. split.
  - intros [[] | (a & Ha & Hs)]. destruct (specialties a) as [l|] eqn:Hl; [|destruct Hs].
    exists a, l. auto.
  - intros (a & l & Ha & Hl & Hs). right. exists a. rewrite Hl. auto.
Qed.

(** ** Text answers *)

(** X23. The text that [describeImageStyle] and [generateArtistResponse]
    return is trimmed: it neither starts nor ends with white space, and
    trimming it again changes nothing. *)
Theorem text_answers_are_trimmed `{Platform}
    (api : HostedApi) (image : File) (history : list Message) (a : Artist)
    (message model : string) (s : string) :
  describeImageStyle api image = Return s
  \/ generateArtistResponse api history a message model = Return s ->
  starts_clean s = true /\ ends_clean s = true /\ trim s = s.
Proof.
  assert (forall response, text_trim response = Return s ->
            starts_clean s = true /\ ends_clean s = true /\ trim s = s) as Htrimmed.
  { intros response. unfold text_trim. destruct (text response) as [t|]; [|discriminate].
    intros [= <-]. destruct (trim_is_clean t). auto using trim_idempotent. }
  intros [Hdescribe | Hreply].
  - unfold describeImageStyle in Hdescribe.
    destruct (fileToPart image) as [part|]; [|discriminate Hdescribe]. cbn [obind] in Hdescribe.
    destruct (generateContent api _) as [response|]; [|discriminate Hdescribe].
    now apply (Htrimmed response).
  - unfold generateArtistResponse, try_catch in Hreply.
    destruct (sendMessage api _) as [response|]; [|discriminate Hreply]. cbn [obind] in Hreply.
    destruct (text_trim response) as [t|] eqn:Htext; [|discriminate Hreply].
    injection Hreply as <-. now apply (Htrimmed response).
Qed.

Lemma text_answers_are_trimmed_witness :
  let api := answering_api four_images
               {| promptFeedback := None; candidates := None;
                  text := Some "  bold black lines, heavy shading  " |} in
  @describeImageStyle (sample_platform 0) api a_png = Return "bold black lines, heavy shading"
  /\ trim "bold black lines, heavy shading" = "bold black lines, heavy shading".
Proof.
  intros api.
  assert (@describeImageStyle (sample_platform 0) api a_png
          = Return "bold black lines, heavy shading") as Hdescribe by (vm_compute; reflexivity).
  split; [exact Hdescribe|].
  apply (@text_answers_are_trimmed (sample_platform 0) api a_png [] (artist_named "Ink & Iron")
           EmptyString EmptyString _ (or_introl Hdescribe)).
Defined.

(** ** Images handed from the service to the component *)

(** X24. Whatever string [handleImageEditApiResponse] returns (the blended
    image, the stencil) is the data URI of some inline image of the answer;
    when the MIME type of that image is one the parsers take whole and its
    payload has no comma, [fileToPart] parses the string back into that type
    and that payload, and [dataURLtoFile] makes of it the file with the
    decoded payload, or throws what the decoder throws. *)
Theorem returned_image_parses_back `{Platform}
    (response : GenerateContentResponse) (context url filename : string) :
  handleImageEditApiResponse response context = Return url ->
  exists img,
    url = "data:" +:+ interp (mimeType img) +:+ ";base64," +:+ interp (data img)
    /\ (parsable_mime (interp (mimeType img)) = true ->
        has_no_comma (interp (data img)) = true ->
        fileToPart_parse url
        = Return (InlineDataPart (interp (mimeType img)) (interp (data img)))
        /\ dataURLtoFile url filename
           = let* bstr := atob (interp (data img)) in
             Return (new_File (list_byte_of_string bstr) filename (interp (mimeType img)))).
Proof.
  unfold handleImageEditApiResponse. intros Hreturned.
  destruct (truthy (promptFeedback response ≫= blockReason)); [discriminate Hreturned|].
  cbv zeta in Hreturned.
  destruct ((((first_candidate response ≫= content) ≫= parts) ≫= List.find has_inlineData)
              ≫= inlineData) as [img|].
  - injection Hreturned as <-. exists img. split; [reflexivity|]. intros Hm Hd. split.
    + unfold parsable_mime in Hm. apply andb_prop in Hm as [Hne Hm]. unfold fileToPart_parse.
      rewrite (data_url_pieces_parsable _ _ Hm Hd). simpl length. simpl nth.
      change (2 <? 2)%nat with false. cbv iota.
      rewrite (match_mime_data_url_parsable _ Hm).
      destruct (interp (mimeType img)) as [|ch rest]; [discriminate Hne|reflexivity].
    + destruct (atob (interp (data img))) as [bstr|e] eqn:Hatob; cbn [obind].
      * now apply dataURLtoFile_decoded.
      * now apply dataURLtoFile_undecodable.
  - destruct (_ && _); discriminate Hreturned.
Qed.

Lemma returned_image_parses_back_witness :
  handleImageEditApiResponse blended_answer "blended image"
  = Return "data:image/png;base64,iVBORw=="
  /\ exists img,
       "data:image/png;base64,iVBORw=="
       = "data:" +:+ interp (mimeType img) +:+ ";base64," +:+ interp (data img)
       /\ (parsable_mime (interp (mimeType img)) = true ->
           has_no_comma (interp (data img)) = true ->
           fileToPart_parse "data:image/png;base64,iVBORw=="
           = Return (InlineDataPart (interp (mimeType img)) (interp (data img)))
           /\ @dataURLtoFile (sample_platform 0) "data:image/png;base64,iVBORw=="
                "final_design.png"
              = let* bstr := @atob (sample_platform 0) (interp (data img)) in
                Return (new_File (list_byte_of_string bstr) "final_design.png"
                          (interp (mimeType img)))).
Proof.
  split; [reflexivity|].
  apply (@returned_image_parses_back (sample_platform 0) blended_answer "blended image").
  reflexivity.
Defined.

(** ** The reference image and the style *)

(** X25. Choosing the reference image that is already chosen takes the
    choice back, empties the style description and starts no call. Choosing
    another one records the choice first and leaves the style description as
    it is; then the image is turned into a file named reference.jpg and its
    description is asked for, or, when the image does not parse, the handler
    throws with the choice already recorded and no call started. Until the
    description arrives, designs are therefore generated with the style of
    the image chosen before. *)
Theorem reference_choice_keeps_the_old_style `{Platform}
    (r : AppState) (image : string) (w : World) :
  (selectedReferenceImage r = Some image ->
   handleSelectReferenceImage r image w
   = (Return tt,
      with_ui (with_styleDescription EmptyString (with_selectedReferenceImage None (ui w))) w))
  /\ (selectedReferenceImage r <> Some image ->
      selectedReferenceImage (ui (snd (handleSelectReferenceImage r image w))) = Some image
      /\ styleDescription (ui (snd (handleSelectReferenceImage r image w)))
         = styleDescription (ui w)
      /\ prompt (ui (snd (handleSelectReferenceImage r image w))) = prompt (ui w)
      /\ match dataURLtoFile image "reference.jpg" with
         | Return file =>
             fst (handleSelectReferenceImage r image w) = Return tt
             /\ inflight (snd (handleSelectReferenceImage r image w))
                = inflight w ++ [MDescribeStyle file]
         | Throw e =>
             fst (handleSelectReferenceImage r image w) = Throw e
             /\ inflight (snd (handleSelectReferenceImage r image w)) = inflight w
         end
      /\ (truthy (Some (trim (prompt (ui w)))) = true ->
          let w1 := snd (handleSelectReferenceImage r image w) in
          exists queued,
            inflight (snd (handleGenerateTattoo (ui w1) w1))
            = queued ++ [MGenerateTattoo (prompt (ui w)) (Some (styleDescription (ui w)))])).
Proof.
  unfold handleSelectReferenceImage, mbind, Handler_bind, lift, setState, mutate.
  destruct w as [s st fl err]. destruct s. split.
  - intros Hchosen. rewrite bool_decide_eq_true_2 by exact Hchosen. reflexivity.
  - intros Hother. rewrite bool_decide_eq_false_2 by exact Hother.
    destruct (dataURLtoFile image "reference.jpg") as [file|e]; cbn;
      (repeat match goal with |- _ /\ _ => split end); try reflexivity;
      intros Hprompt; unfold handleGenerateTattoo; cbn; cbn in Hprompt; rewrite Hprompt;
      eexists; reflexivity.
Qed.

(** ** A booking without a design *)


